(** * vmboard: the terminal WebSocket bridge ([src/server/wss/terminal.ts])

    A shallow embedding of [setupTerminalWebSocketServer]: the connection
    handler, the handlers it registers on the WebSocket, on the ssh2 client
    and on the shell stream, and the JavaScript built-ins those handlers call
    ([Buffer.toString], [JSON.parse], [Number.parseInt], the writable
    stream's text encoding).

    Conventions.
    - A JavaScript string is its sequence of UTF-16 code units, a [list Z].
    - A [Buffer] is its sequence of bytes, a [list Z] of values below 256.
    - A JavaScript number is an IEEE 754 binary64 value, a primitive [float].
    - A handler is a computation in [M]: it records the calls it makes on
      its collaborators (the trace) and either returns or throws. *)

From Stdlib Require Import ZArith List Bool Lia String Ascii DecimalString.
From Stdlib Require Import PrimFloat FloatOps SpecFloat.
Import ListNotations.

Local Open Scope Z_scope.
Local Open Scope list_scope.

(* ================================================================= *)
(** ** JavaScript strings *)

Module JsString.

Definition code_unit := Z.
Definition jsstring := list code_unit.

(** An ASCII literal of the source as a JavaScript string. *)
Definition js (s : string) : jsstring :=
  map (fun a => Z.of_N (N_of_ascii a)) (list_ascii_of_string s).

(** The bytes of a literal as the source file stores it (UTF-8). *)
Definition source_bytes (s : string) : list Z :=
  map (fun a => Z.of_N (N_of_ascii a)) (list_ascii_of_string s).

(** The bytes of a text written with an apostrophe wherever the text
    has a double quote. *)
Definition quoted_bytes (s : string) : list Z :=
  map (fun u => if u =? 39 then 34 else u) (source_bytes s).

Fixpoint eqb (s t : jsstring) : bool :=
  match s, t with
  | [], [] => true
  | a :: s', b :: t' => (a =? b) && eqb s' t'
  | _, _ => false
  end.

(** [Array.prototype.join] on strings. *)
Fixpoint join (sep : jsstring) (parts : list jsstring) : jsstring :=
  match parts with
  | [] => []
  | [p] => p
  | p :: rest => p ++ sep ++ join sep rest
  end.

(** [Number.prototype.toString] on an integer-valued number below 10^21:
    the decimal digits, with a minus sign when negative. *)
Definition of_integer (n : Z) : jsstring :=
  js (NilZero.string_of_int (Z.to_int n)).

End JsString.
Export JsString.

(* ================================================================= *)
(** ** UTF-8: [Buffer.prototype.toString("utf8")] and the encoding of a
       string written to a byte stream *)

Module Utf8.

(** The decoder is the byte-at-a-time automaton of the Encoding Standard:
    either no sequence is open, or a sequence is open with the code point
    bits read so far, the number of continuation bytes still needed and
    the range allowed for the next byte. *)
Inductive dstate :=
| Idle
| Pending (code_point : Z) (needed : nat) (lower upper : Z).

Definition replacement : Z := 0xFFFD.

(** A code point as UTF-16 code units. *)
Definition code_units_of (cp : Z) : jsstring :=
  if cp <? 0x10000 then [cp]
  else [0xD800 + Z.shiftr (cp - 0x10000) 10;
        0xDC00 + Z.land (cp - 0x10000) 0x3FF].

Definition in_range (lo hi b : Z) : bool := (lo <=? b) && (b <=? hi).

(** A byte read while no sequence is open. *)
Definition lead (b : Z) : dstate * jsstring :=
  if in_range 0x00 0x7F b then (Idle, [b])
  else if in_range 0xC2 0xDF b then
    (Pending (Z.land b 0x1F) 1 0x80 0xBF, [])
  else if in_range 0xE0 0xEF b then
    (Pending (Z.land b 0x0F) 2
       (if b =? 0xE0 then 0xA0 else 0x80)
       (if b =? 0xED then 0x9F else 0xBF), [])
  else if in_range 0xF0 0xF4 b then
    (Pending (Z.land b 0x07) 3
       (if b =? 0xF0 then 0x90 else 0x80)
       (if b =? 0xF4 then 0x8F else 0xBF), [])
  else (Idle, [replacement]).

(** One byte. A byte outside the allowed range closes the open sequence
    with U+FFFD and is then read again as a lead byte. *)
Definition step (st : dstate) (b : Z) : dstate * jsstring :=
  match st with
  | Idle => lead b
  | Pending cp needed lo hi =>
      if in_range lo hi b then
        let cp' := Z.lor (Z.shiftl cp 6) (Z.land b 0x3F) in
        match needed with
        | S (S n) => (Pending cp' (S n) 0x80 0xBF, [])
        | _ => (Idle, code_units_of cp')
        end
      else
        let (st', out) := lead b in (st', replacement :: out)
  end.

Fixpoint decode_from (st : dstate) (bytes : list Z) : jsstring :=
  match bytes with
  | [] => match st with Idle => [] | Pending _ _ _ _ => [replacement] end
  | b :: rest => let (st', out) := step st b in out ++ decode_from st' rest
  end.

(** [buf.toString("utf8")]: ill-formed input is replaced, never rejected;
    a byte order mark is kept. *)
Definition decode (bytes : list Z) : jsstring := decode_from Idle bytes.

Definition is_high (u : Z) : bool := in_range 0xD800 0xDBFF u.
Definition is_low (u : Z) : bool := in_range 0xDC00 0xDFFF u.

Definition encode_code_point (cp : Z) : list Z :=
  if cp <? 0x80 then [cp]
  else if cp <? 0x800 then
    [Z.lor 0xC0 (Z.shiftr cp 6); Z.lor 0x80 (Z.land cp 0x3F)]
  else if cp <? 0x10000 then
    [Z.lor 0xE0 (Z.shiftr cp 12);
     Z.lor 0x80 (Z.land (Z.shiftr cp 6) 0x3F);
     Z.lor 0x80 (Z.land cp 0x3F)]
  else
    [Z.lor 0xF0 (Z.shiftr cp 18);
     Z.lor 0x80 (Z.land (Z.shiftr cp 12) 0x3F);
     Z.lor 0x80 (Z.land (Z.shiftr cp 6) 0x3F);
     Z.lor 0x80 (Z.land cp 0x3F)].

(** [Buffer.from(s, "utf8")], which a writable stream applies to a string
    chunk: surrogate pairs are combined, a lone surrogate is written as
    U+FFFD. *)
Fixpoint encode (s : jsstring) : list Z :=
  match s with
  | [] => []
  | u :: rest =>
      if is_high u then
        match rest with
        | l :: rest' =>
            if is_low l then
              encode_code_point
                (0x10000 + Z.shiftl (u - 0xD800) 10 + (l - 0xDC00))
                ++ encode rest'
            else encode_code_point replacement ++ encode rest
        | [] => encode_code_point replacement
        end
      else if is_low u then encode_code_point replacement ++ encode rest
      else encode_code_point u ++ encode rest
  end.

(** The code point a sequence of two, three or four bytes denotes. *)
Definition cp2 (b0 b1 : Z) : Z := (b0 - 0xC0) * 64 + (b1 - 0x80).

Definition cp3 (b0 b1 b2 : Z) : Z :=
  ((b0 - 0xE0) * 64 + (b1 - 0x80)) * 64 + (b2 - 0x80).

Definition cp4 (b0 b1 b2 b3 : Z) : Z :=
  (((b0 - 0xF0) * 64 + (b1 - 0x80)) * 64 + (b2 - 0x80)) * 64 + (b3 - 0x80).

(** Well-formed UTF-8 byte sequences (Unicode, table 3-7). *)
Fixpoint well_formed (bytes : list Z) : bool :=
  match bytes with
  | [] => true
  | b0 :: r0 =>
      if in_range 0x00 0x7F b0 then well_formed r0
      else if in_range 0xC2 0xDF b0 then
        match r0 with
        | b1 :: r1 => in_range 0x80 0xBF b1 && well_formed r1
        | _ => false
        end
      else if in_range 0xE0 0xEF b0 then
        match r0 with
        | b1 :: b2 :: r2 =>
            in_range (if b0 =? 0xE0 then 0xA0 else 0x80)
                     (if b0 =? 0xED then 0x9F else 0xBF) b1
            && in_range 0x80 0xBF b2 && well_formed r2
        | _ => false
        end
      else if in_range 0xF0 0xF4 b0 then
        match r0 with
        | b1 :: b2 :: b3 :: r3 =>
            in_range (if b0 =? 0xF0 then 0x90 else 0x80)
                     (if b0 =? 0xF4 then 0x8F else 0xBF) b1
            && in_range 0x80 0xBF b2 && in_range 0x80 0xBF b3
            && well_formed r3
        | _ => false
        end
      else false
  end.

End Utf8.

(* ================================================================= *)
(** ** JavaScript numbers *)

Module JsNumber.

Definition number := float.
Bind Scope float_scope with number.

(** The number nearest to a natural number (round to nearest, ties to
    even), as the conversion of a numeric literal gives it. *)
Definition of_Z (n : Z) : number :=
  SF2Prim (binary_normalize prec emax n 0 false).

(** The number nearest to [m * 10^e], [m] not negative. For a negative
    exponent the quotient is computed with enough extra bits and a sticky
    bit, so that rounding it rounds the exact value. *)
Definition of_decimal (m e : Z) : number :=
  if m =? 0 then zero
  else if 0 <=? e then of_Z (m * 10 ^ e)
  else
    let d := 10 ^ (- e) in
    let s := Z.max 1080 (Z.log2 d - Z.log2 m + 66) in
    let q := (m * 2 ^ s) / d in
    let sticky := if (m * 2 ^ s) mod d =? 0 then 0 else 1 in
    SF2Prim (binary_normalize prec emax (2 * q + sticky) (- s - 1) false).

Definition negate_if (neg : bool) (x : number) : number :=
  if neg then (- x)%float else x.

(** ToBoolean on a number: every number but 0, -0 and NaN is truthy. *)
Definition truthy (x : number) : bool := negb (is_zero x || is_nan x).

(** White space and line terminators, as [String.prototype.trim] and
    [parseInt] skip them. *)
Definition is_white_space (u : Z) : bool :=
  (u =? 0x09) || (u =? 0x0A) || (u =? 0x0B) || (u =? 0x0C) || (u =? 0x0D)
  || (u =? 0x20) || (u =? 0xA0) || (u =? 0x1680)
  || ((0x2000 <=? u) && (u <=? 0x200A))
  || (u =? 0x2028) || (u =? 0x2029) || (u =? 0x202F) || (u =? 0x205F)
  || (u =? 0x3000) || (u =? 0xFEFF).

Fixpoint trim_start (s : jsstring) : jsstring :=
  match s with
  | u :: rest => if is_white_space u then trim_start rest else s
  | [] => []
  end.

(** The value of a code unit as a digit in the given radix. *)
Definition digit_value (radix u : Z) : option Z :=
  let v :=
    if (48 <=? u) && (u <=? 57) then u - 48
    else if (97 <=? u) && (u <=? 122) then u - 97 + 10
    else if (65 <=? u) && (u <=? 90) then u - 65 + 10
    else radix in
  if v <? radix then Some v else None.

(** The longest prefix of digits: its value, and whether it is empty. *)
Fixpoint scan_digits (radix : Z) (s : jsstring) (acc : Z) (seen : bool)
  : Z * bool :=
  match s with
  | [] => (acc, seen)
  | u :: rest =>
      match digit_value radix u with
      | Some v => scan_digits radix rest (acc * radix + v) true
      | None => (acc, seen)
      end
  end.

(** [Number.parseInt(string)] with no radix argument. *)
Definition parseInt (inputString : jsstring) : number :=
  let S0 := trim_start inputString in
  let '(neg, S1) :=
    match S0 with
    | 45 :: rest => (true, rest)
    | 43 :: rest => (false, rest)
    | _ => (false, S0)
    end in
  let '(R, S2) :=
    match S1 with
    | 48 :: 120 :: rest => (16, rest)
    | 48 :: 88 :: rest => (16, rest)
    | _ => (10, S1)
    end in
  let '(mathInt, seen) := scan_digits R S2 0 false in
  if seen then negate_if neg (of_Z mathInt) else nan.

(** The longest prefix of decimal digits: its value, its length and what
    follows it. *)
Fixpoint take_digits (s : jsstring) (acc : Z) (count : Z)
  : Z * Z * jsstring :=
  match s with
  | u :: rest =>
      if (48 <=? u) && (u <=? 57)
      then take_digits rest (acc * 10 + (u - 48)) (count + 1)
      else (acc, count, s)
  | [] => (acc, count, [])
  end.

(** Digits in the given radix up to the end of the string. *)
Fixpoint all_digits (radix : Z) (s : jsstring) (acc : Z) : option Z :=
  match s with
  | [] => Some acc
  | u :: rest =>
      match digit_value radix u with
      | Some v => all_digits radix rest (acc * radix + v)
      | None => None
      end
  end.

Fixpoint all_white_space (s : jsstring) : bool :=
  match s with
  | [] => true
  | u :: rest => is_white_space u && all_white_space rest
  end.

(** An optional exponent part, then only white space. *)
Definition exponent_part (s : jsstring) : option Z :=
  match s with
  | 101 :: rest | 69 :: rest =>
      let '(eneg, digits) :=
        match rest with
        | 45 :: r => (true, r)
        | 43 :: r => (false, r)
        | _ => (false, rest)
        end in
      let '(e, n, tail) := take_digits digits 0 0 in
      if (0 <? n) && all_white_space tail
      then Some (if eneg then - e else e) else None
  | _ => if all_white_space s then Some 0 else None
  end.

(** An unsigned decimal literal, then only white space. *)
Definition unsigned_decimal (s : jsstring) : option number :=
  match s with
  | 73 :: 110 :: 102 :: 105 :: 110 :: 105 :: 116 :: 121 :: tail =>
      if all_white_space tail then Some infinity else None
  | _ =>
      let '(i, ni, after_int) := take_digits s 0 0 in
      let '(m, nf, after_frac) :=
        match after_int with
        | 46 :: r =>
            let '(m, n, tail) := take_digits r i ni in (m, n - ni, tail)
        | _ => (i, 0, after_int)
        end in
      if ni + nf =? 0 then None
      else
        match exponent_part after_frac with
        | Some e => Some (of_decimal m (e - nf))
        | None => None
        end
  end.

(** [String.prototype.trim]: white space removed at both ends. *)
Definition trim (s : jsstring) : jsstring :=
  rev (trim_start (rev (trim_start s))).

(** A literal with a radix prefix: at least one digit, and digits only. *)
Definition radix_literal (radix : Z) (digits : jsstring) : number :=
  match digits with
  | [] => nan
  | _ =>
      match all_digits radix digits 0 with
      | Some n => of_Z n
      | None => nan
      end
  end.

(** [Number(string)]: the string, white space around it removed, as a
    numeric literal; the empty string is 0, anything that is no literal
    is NaN. *)
Definition Number_of_string (s : jsstring) : number :=
  let t := trim s in
  match t with
  | [] => zero
  | 48 :: 120 :: digits | 48 :: 88 :: digits => radix_literal 16 digits
  | 48 :: 111 :: digits | 48 :: 79 :: digits => radix_literal 8 digits
  | 48 :: 98 :: digits | 48 :: 66 :: digits => radix_literal 2 digits
  | 45 :: rest =>
      match unsigned_decimal rest with
      | Some x => (- x)%float
      | None => nan
      end
  | 43 :: rest =>
      match unsigned_decimal rest with Some x => x | None => nan end
  | _ => match unsigned_decimal t with Some x => x | None => nan end
  end.

End JsNumber.
Export JsNumber.

(* ================================================================= *)
(** ** JavaScript values and errors *)

#[warnings="-register-all"]
Inductive JsValue :=
| JUndefined
| JNull
| JBool (b : bool)
| JNumber (n : number)
| JString (s : jsstring)
| JArray (elements : list JsValue)
| JObject (members : list (jsstring * JsValue)).

Inductive ErrorClass := SyntaxError | TypeError | PlainError.

Record JsError := mkError { err_class : ErrorClass; err_message : jsstring }.

(** What a [throw] carries: an [Error] object or any other value. *)
Inductive Thrown :=
| ThrownError (e : JsError)
| ThrownValue (v : JsValue).

Definition instanceof_Error (t : Thrown) : bool :=
  match t with ThrownError _ => true | ThrownValue _ => false end.

Definition instanceof_SyntaxError (t : Thrown) : bool :=
  match t with
  | ThrownError e =>
      match err_class e with SyntaxError => true | _ => false end
  | ThrownValue _ => false
  end.

(* ================================================================= *)
(** ** [JSON.parse] *)

Module JSON.

Inductive token :=
| TLBrace | TRBrace | TLBracket | TRBracket | TColon | TComma
| TString (s : jsstring)
| TNumber (n : number)
| TTrue | TFalse | TNull.

(** Where the scanner stands inside a number. *)
Inductive numphase :=
| NSign       (* after the minus sign: a digit must follow *)
| NZero       (* after a leading zero *)
| NInt        (* inside the integer part *)
| NDot        (* after the point: a digit must follow *)
| NFrac       (* inside the fraction *)
| NExp        (* after e or E: a sign or a digit must follow *)
| NExpSign    (* after the sign of the exponent: a digit must follow *)
| NExpDigits. (* inside the exponent *)

Record numacc := mkNum {
  num_neg : bool;      (* a minus sign was read *)
  num_mant : Z;        (* the digits of integer part and fraction *)
  num_scale : Z;       (* how many of them belong to the fraction *)
  num_eneg : bool;     (* the exponent has a minus sign *)
  num_exp : Z          (* the digits of the exponent *)
}.

Definition num_value (a : numacc) : number :=
  negate_if (num_neg a)
    (of_decimal (num_mant a)
       ((if num_eneg a then - num_exp a else num_exp a) - num_scale a)).

Definition num_accepting (p : numphase) : bool :=
  match p with
  | NZero | NInt | NFrac | NExpDigits => true
  | NSign | NDot | NExp | NExpSign => false
  end.

Inductive lstate :=
| LStart
| LString (acc : jsstring)                         (* reversed *)
| LEscape (acc : jsstring)
| LUnicode (acc : jsstring) (value : Z) (needed : nat)
| LNumber (p : numphase) (a : numacc)
| LLiteral (rest : jsstring) (tok : token)
| LFail.

Definition is_digit (u : Z) : bool := (48 <=? u) && (u <=? 57).

Definition is_json_space (u : Z) : bool :=
  (u =? 0x20) || (u =? 0x09) || (u =? 0x0A) || (u =? 0x0D).

Definition hex_value (u : Z) : option Z :=
  if (48 <=? u) && (u <=? 57) then Some (u - 48)
  else if (97 <=? u) && (u <=? 102) then Some (u - 97 + 10)
  else if (65 <=? u) && (u <=? 70) then Some (u - 65 + 10)
  else None.

(** A code unit read between tokens. *)
Definition lex_start (u : Z) : lstate * list token :=
  if is_json_space u then (LStart, [])
  else if u =? 123 then (LStart, [TLBrace])
  else if u =? 125 then (LStart, [TRBrace])
  else if u =? 91 then (LStart, [TLBracket])
  else if u =? 93 then (LStart, [TRBracket])
  else if u =? 58 then (LStart, [TColon])
  else if u =? 44 then (LStart, [TComma])
  else if u =? 34 then (LString [], [])
  else if u =? 45 then (LNumber NSign (mkNum true 0 0 false 0), [])
  else if u =? 48 then (LNumber NZero (mkNum false 0 0 false 0), [])
  else if is_digit u then (LNumber NInt (mkNum false (u - 48) 0 false 0), [])
  else if u =? 116 then (LLiteral (js "rue") TTrue, [])
  else if u =? 102 then (LLiteral (js "alse") TFalse, [])
  else if u =? 110 then (LLiteral (js "ull") TNull, [])
  else (LFail, []).

Definition push_digit (a : numacc) (u : Z) (frac : bool) : numacc :=
  mkNum (num_neg a) (num_mant a * 10 + (u - 48))
        (if frac then num_scale a + 1 else num_scale a)
        (num_eneg a) (num_exp a).

Definition push_exp_digit (a : numacc) (u : Z) : numacc :=
  mkNum (num_neg a) (num_mant a) (num_scale a) (num_eneg a)
        (num_exp a * 10 + (u - 48)).

Definition set_exp_neg (a : numacc) : numacc :=
  mkNum (num_neg a) (num_mant a) (num_scale a) true (num_exp a).

(** A code unit read inside a number: [None] when it does not continue
    the number. *)
Definition lex_number (p : numphase) (a : numacc) (u : Z)
  : option (numphase * numacc) :=
  let is_e := (u =? 101) || (u =? 69) in
  match p with
  | NSign =>
      if u =? 48 then Some (NZero, a)
      else if is_digit u then Some (NInt, push_digit a u false)
      else None
  | NZero =>
      if u =? 46 then Some (NDot, a)
      else if is_e then Some (NExp, a)
      else None
  | NInt =>
      if is_digit u then Some (NInt, push_digit a u false)
      else if u =? 46 then Some (NDot, a)
      else if is_e then Some (NExp, a)
      else None
  | NDot =>
      if is_digit u then Some (NFrac, push_digit a u true) else None
  | NFrac =>
      if is_digit u then Some (NFrac, push_digit a u true)
      else if is_e then Some (NExp, a)
      else None
  | NExp =>
      if u =? 43 then Some (NExpSign, a)
      else if u =? 45 then Some (NExpSign, set_exp_neg a)
      else if is_digit u then Some (NExpDigits, push_exp_digit a u)
      else None
  | NExpSign =>
      if is_digit u then Some (NExpDigits, push_exp_digit a u) else None
  | NExpDigits =>
      if is_digit u then Some (NExpDigits, push_exp_digit a u) else None
  end.

Definition lex_escape (acc : jsstring) (u : Z) : lstate :=
  if u =? 34 then LString (34 :: acc)
  else if u =? 92 then LString (92 :: acc)
  else if u =? 47 then LString (47 :: acc)
  else if u =? 98 then LString (8 :: acc)
  else if u =? 102 then LString (12 :: acc)
  else if u =? 110 then LString (10 :: acc)
  else if u =? 114 then LString (13 :: acc)
  else if u =? 116 then LString (9 :: acc)
  else if u =? 117 then LUnicode acc 0 4
  else LFail.

(** One code unit; the tokens it completes, in order. *)
Definition lex_step (st : lstate) (u : Z) : lstate * list token :=
  match st with
  | LStart => lex_start u
  | LString acc =>
      if u =? 34 then (LStart, [TString (rev acc)])
      else if u =? 92 then (LEscape acc, [])
      else if u <? 0x20 then (LFail, [])
      else (LString (u :: acc), [])
  | LEscape acc => (lex_escape acc u, [])
  | LUnicode acc value needed =>
      match hex_value u with
      | Some d =>
          match needed with
          | S (S n) => (LUnicode acc (value * 16 + d) (S n), [])
          | _ => (LString ((value * 16 + d) :: acc), [])
          end
      | None => (LFail, [])
      end
  | LNumber p a =>
      match lex_number p a u with
      | Some (p', a') => (LNumber p' a', [])
      | None =>
          if num_accepting p then
            let (st', toks) := lex_start u in
            (st', TNumber (num_value a) :: toks)
          else (LFail, [])
      end
  | LLiteral rest tok =>
      match rest with
      | c :: rest' =>
          if u =? c then
            match rest' with
            | [] => (LStart, [tok])
            | _ => (LLiteral rest' tok, [])
            end
          else (LFail, [])
      | [] => (LFail, [])
      end
  | LFail => (LFail, [])
  end.

Fixpoint lex_from (st : lstate) (text : jsstring) : option (list token) :=
  match text with
  | [] =>
      match st with
      | LStart => Some []
      | LNumber p a =>
          if num_accepting p then Some [TNumber (num_value a)] else None
      | _ => None
      end
  | u :: rest =>
      let (st', toks) := lex_step st u in
      match st' with
      | LFail => None
      | _ =>
          match lex_from st' rest with
          | Some more => Some (toks ++ more)
          | None => None
          end
      end
  end.

Definition lex (text : jsstring) : option (list token) := lex_from LStart text.

(** An enclosing array or object still open, with what it holds so far
    (reversed); an object frame also holds the key whose value is being
    read. *)
Inductive frame :=
| FArray (elements : list JsValue)
| FObject (members : list (jsstring * JsValue)) (key : jsstring).

Inductive pstate :=
| PValue (ctx : list frame)                 (* a value must follow *)
| PArrayStart (ctx : list frame)            (* after [: a value or ] *)
| PArraySep (elements : list JsValue) (ctx : list frame)   (* , or ] *)
| PObjectStart (ctx : list frame)           (* after {: a key or } *)
| PObjectKey (members : list (jsstring * JsValue)) (ctx : list frame)
| PObjectColon (members : list (jsstring * JsValue)) (key : jsstring)
               (ctx : list frame)
| PObjectSep (members : list (jsstring * JsValue)) (ctx : list frame)
| PDone (v : JsValue)
| PFail.

(** A value is complete: it goes into the innermost open frame. *)
Definition reduce (v : JsValue) (ctx : list frame) : pstate :=
  match ctx with
  | [] => PDone v
  | FArray elements :: ctx' => PArraySep (v :: elements) ctx'
  | FObject members key :: ctx' => PObjectSep ((key, v) :: members) ctx'
  end.

(** A token read where a value must start. *)
Definition start_value (tok : token) (ctx : list frame) : pstate :=
  match tok with
  | TString s => reduce (JString s) ctx
  | TNumber n => reduce (JNumber n) ctx
  | TTrue => reduce (JBool true) ctx
  | TFalse => reduce (JBool false) ctx
  | TNull => reduce JNull ctx
  | TLBracket => PArrayStart ctx
  | TLBrace => PObjectStart ctx
  | TRBrace | TRBracket | TColon | TComma => PFail
  end.

Definition parse_step (st : pstate) (tok : token) : pstate :=
  match st with
  | PValue ctx => start_value tok ctx
  | PArrayStart ctx =>
      match tok with
      | TRBracket => reduce (JArray []) ctx
      | _ => start_value tok (FArray [] :: ctx)
      end
  | PArraySep elements ctx =>
      match tok with
      | TComma => PValue (FArray elements :: ctx)
      | TRBracket => reduce (JArray (rev elements)) ctx
      | _ => PFail
      end
  | PObjectStart ctx =>
      match tok with
      | TRBrace => reduce (JObject []) ctx
      | TString key => PObjectColon [] key ctx
      | _ => PFail
      end
  | PObjectKey members ctx =>
      match tok with
      | TString key => PObjectColon members key ctx
      | _ => PFail
      end
  | PObjectColon members key ctx =>
      match tok with
      | TColon => PValue (FObject members key :: ctx)
      | _ => PFail
      end
  | PObjectSep members ctx =>
      match tok with
      | TComma => PObjectKey members ctx
      | TRBrace => reduce (JObject (rev members)) ctx
      | _ => PFail
      end
  | PDone _ => PFail
  | PFail => PFail
  end.

(** The value a JSON text denotes, if it is one. The members of an object
    are kept in the order of the text, repeated keys included. *)
Definition parse_text (text : jsstring) : option JsValue :=
  match lex text with
  | Some toks =>
      match fold_left parse_step toks (PValue []) with
      | PDone v => Some v
      | _ => None
      end
  | None => None
  end.

End JSON.

(* ================================================================= *)
(** ** The collaborators: what the bridge is given and what it calls *)

(** The message the [ws] library hands to a "message" listener:
    [Buffer | ArrayBuffer | Buffer[]]. A server created without a
    [binaryType], as [wssTerm] is, delivers every message as a [Buffer]. *)
Inductive RawData :=
| RBuffer (bytes : list Z)
| RArrayBuffer (bytes : list Z)
| RBuffers (fragments : list (list Z)).

(** [message.toString()]. *)
Definition RawData_toString (message : RawData) : jsstring :=
  match message with
  | RBuffer bytes => Utf8.decode bytes
  | RArrayBuffer _ => js "[object ArrayBuffer]"
  | RBuffers fragments => join (js ",") (map Utf8.decode fragments)
  end.

Definition Headers := list (jsstring * jsstring).

(** The upgrade request, as the handlers read it: the path and the query
    parameters of its URL, and its headers. *)
Record IncomingMessage := mkRequest {
  pathname : jsstring;
  searchParams : list (jsstring * jsstring);
  headers : Headers
}.

(** [url.searchParams.get(name)]: the first value under that name. *)
Fixpoint searchParams_get (params : list (jsstring * jsstring))
  (name : jsstring) : option jsstring :=
  match params with
  | [] => None
  | (k, v) :: rest =>
      if JsString.eqb k name then Some v else searchParams_get rest name
  end.

(** Modelled from the spec: the authenticated-session object of the
    authorization service ([@/lib/auth] is not part of the sources); only
    its presence is read. *)
Record AuthSession := mkAuthSession { session_user : jsstring }.

(** Modelled from the spec: the connection parameters stored with a
    target ([@/db/schema/vm] is not part of the sources): host, port,
    username and inline private-key material, each optional, and the
    reference to a stored key the source reads as [sshKeyId]. *)
Record SshInfo := mkSshInfo {
  host : option jsstring;
  port : option number;
  username : option jsstring;
  privateKey : option jsstring;
  sshKeyId : option number
}.

(** Modelled from the spec: a target row, with the two columns the source
    reads. *)
Record Vm := mkVm {
  ipAddress : option jsstring;
  sshInfo : option SshInfo
}.

(** Modelled from the spec: a row of the key store
    ([@/db/schema/ssh-key] is not part of the sources); a stored key
    carries private-key material. *)
Record SshKey := mkSshKey { key_privateKey : jsstring }.


(** The argument of [conn.connect]. *)
Record ConnectConfig := mkConnectConfig {
  cfg_timeout : number;
  cfg_keepaliveInterval : number;
  cfg_readyTimeout : number;
  cfg_sshKeyId : option number;     (* carried over by the spread *)
  cfg_host : option jsstring;
  cfg_port : number;
  cfg_username : jsstring;
  cfg_privateKey : option jsstring
}.

(** The answers of the external services, and of the ssh2 client to a
    configuration: [conn.connect] checks its argument before it connects
    and throws when it refuses it (a private key it cannot parse);
    [connect_error] is the error it throws then. *)
Record Env := mkEnv {
  getSession : Headers -> option AuthSession;
  vm_findFirst : number -> option Vm;
  sshKeysTable_findFirst : number -> option SshKey;
  connect_error : ConnectConfig -> option JsError
}.

(** The first argument of [conn.shell]. *)
Record PseudoTtyOptions := mkPty {
  pty_term : jsstring;
  pty_cols : number;
  pty_rows : number;
  pty_width : number;
  pty_height : number
}.

Inductive ReadyState := CONNECTING | OPEN | CLOSING | CLOSED.

(** A call the bridge makes on one of its collaborators. *)
Inductive Effect :=
| AuthGetSession (h : Headers)
| DbFindVm (id : number)
| DbFindSshKey (id : number)
| SetInterval (ms : number)
| ClearInterval
| WsSend (data : jsstring)
| WsPing
| WsClose
| ConnConnect (config : ConnectConfig)
| ConnShell (window : PseudoTtyOptions)
| ConnEnd
| StreamSetEncoding (encoding : jsstring)
| StreamSetWindow (rows cols height width : number)
| StreamWrite (chunk : jsstring)
| StreamEnd
| ConsoleLog (args : list jsstring)
| ConsoleError (args : list jsstring).

(* ================================================================= *)
(** ** Computations: a trace of calls, and a result or a thrown value *)

Definition M (A : Type) : Type := list Effect * (Thrown + A).

Definition ret {A} (a : A) : M A := ([], inr a).

Definition bind {A B} (m : M A) (k : A -> M B) : M B :=
  match m with
  | (t, inl e) => (t, inl e)
  | (t, inr a) => let (t', r) := k a in (t ++ t', r)
  end.

Definition throw {A} (e : Thrown) : M A := ([], inl e).

Definition emit (e : Effect) : M unit := ([e], inr tt).

(** [try { body } catch (error) { handler }]. *)
Definition try_catch {A} (body : M A) (handler : Thrown -> M A) : M A :=
  match body with
  | (t, inl e) => let (t', r) := handler e in (t ++ t', r)
  | (t, inr a) => (t, inr a)
  end.

Declare Scope js_scope.
Delimit Scope js_scope with js.
Notation "x <- m ;; k" := (bind m (fun x => k))
  (at level 61, m at next level, right associativity) : js_scope.
Notation "m ;; k" := (bind m (fun _ => k))
  (at level 61, right associativity) : js_scope.
Local Open Scope js_scope.

Definition trace {A} (m : M A) : list Effect := fst m.
Definition outcome {A} (m : M A) : Thrown + A := snd m.

(** [JSON.parse(text)]: the value, or a [SyntaxError]. The text of the
    error is the engine's and nothing in the bridge reads it. *)
Definition JSON_parse (text : jsstring) : M JsValue :=
  match JSON.parse_text text with
  | Some v => ret v
  | None =>
      throw (ThrownError (mkError SyntaxError (js "Unexpected token in JSON")))
  end.

(** The last member under a name: a repeated key overrides. *)
Fixpoint lookup (members : list (jsstring * JsValue)) (name : jsstring)
  : option JsValue :=
  match members with
  | [] => None
  | (k, v) :: rest =>
      match lookup rest name with
      | Some v' => Some v'
      | None => if JsString.eqb k name then Some v else None
      end
  end.

(** [value.name] for the names the message handler reads ([type],
    [rows], [cols], [data]), none of which the built-in prototypes
    define: a member of an object, [undefined] on any other value, and a
    [TypeError] on [null] and [undefined]. *)
Definition get_property (value : JsValue) (name : string) : M JsValue :=
  match value with
  | JObject members =>
      ret (match lookup members (js name) with
           | Some v => v
           | None => JUndefined
           end)
  | JNull =>
      throw (ThrownError (mkError TypeError
        (js "Cannot read properties of null (reading '" ++ js name ++ js "')")))
  | JUndefined =>
      throw (ThrownError (mkError TypeError
        (js "Cannot read properties of undefined (reading '" ++ js name
           ++ js "')")))
  | _ => ret JUndefined
  end.

(** [value === "literal"]. *)
Definition strict_eq_string (value : JsValue) (literal : string) : bool :=
  match value with
  | JString s => JsString.eqb s (js literal)
  | _ => false
  end.

(** ToBoolean on an optional string: absent and empty are falsy. *)
Definition truthy_string (s : option jsstring) : bool :=
  match s with
  | Some (_ :: _) => true
  | _ => false
  end.

(** ToBoolean on an optional number. *)
Definition truthy_number (x : option number) : bool :=
  match x with
  | Some n => JsNumber.truthy n
  | None => false
  end.

(* ================================================================= *)
(** ** [setupTerminalWebSocketServer] *)

(** The "upgrade" listener: whether the request is handed to [wssTerm]. *)
Definition upgrade (req : IncomingMessage) : bool :=
  if JsString.eqb (pathname req) (js "/_next/webpack-hmr") then false
  else JsString.eqb (pathname req) (js "/wss/terminal").

(** Which listeners a session has registered so far. *)
Inductive Phase :=
| Connecting       (* "ready" (once) and "error" on [conn] *)
| ShellRequested   (* "error" on [conn]; [conn.shell] was called *)
| ShellFailed      (* "error" on [conn]; the shell callback got an error *)
| ShellOpen.       (* also the listeners on [stream] and on [ws] *)

(** The variables the listeners of one connection close over. *)
Record Session := mkSession {
  cols : number;
  rows : number;
  pingInterval : bool;      (* the heartbeat timer is still set *)
  phase : Phase
}.

(** The message the source sends first, as the source file spells it. *)
Definition connecting_notice : jsstring :=
  Utf8.decode (source_bytes "正在尝试连接服务器...") ++ [13].

(** The object handed to [conn.connect]: the fixed timeouts, then the
    stored parameters spread over them, then host, port, user name and
    private key. *)
Definition connect_config (vm : Vm) (vm_sshInfo : SshInfo)
  (privateKey : option jsstring) : ConnectConfig := {|
  cfg_timeout := 3000;
  cfg_keepaliveInterval := 10000;
  cfg_readyTimeout := 3000;
  cfg_sshKeyId := sshKeyId vm_sshInfo;
  cfg_host :=
    if truthy_string (host vm_sshInfo) then host vm_sshInfo
    else if truthy_string (ipAddress vm) then ipAddress vm
    else None;
  cfg_port :=
    match port vm_sshInfo with
    | Some p => if JsNumber.truthy p then p else 22
    | None => 22
    end;
  cfg_username :=
    match username vm_sshInfo with
    | Some [] => js "root"
    | Some stored => stored
    | None => js "root"
    end;
  cfg_privateKey := privateKey
|}.

(** The body of the "connection" listener. [Some]: the listeners on
    [conn] are registered and [conn.connect] returned. [None]: the
    connection was turned away and no listener is registered. The
    listener throws when [conn.connect] does: the timer is set and the
    notice sent by then, and nothing catches the error. *)
Definition onConnection (env : Env) (req : IncomingMessage)
  : M (option Session) :=
  session <- (emit (AuthGetSession (headers req));;
              ret (getSession env (headers req)));;
  match session with
  | None =>
      emit (WsSend (js "[ERROR] Unauthorized"));;
      emit WsClose;;
      ret None
  | Some _ =>
      let vmId := searchParams_get (searchParams req) (js "vmId") in
      let cols :=
        parseInt (match searchParams_get (searchParams req) (js "cols") with
                  | Some v => v
                  | None => js "80"
                  end) in
      let rows :=
        parseInt (match searchParams_get (searchParams req) (js "rows") with
                  | Some v => v
                  | None => js "30"
                  end) in
      match vmId with
      | Some ((_ :: _) as vmId) =>
          vm <- (emit (DbFindVm (Number_of_string vmId));;
                 ret (vm_findFirst env (Number_of_string vmId)));;
          match vm with
          | None =>
              emit (WsSend (js "[ERROR] Server not found"));;
              emit WsClose;;
              ret None
          | Some vm =>
              match sshInfo vm with
              | None =>
                  emit (WsSend (js
                    "[ERROR] No SSH key or password available for this server"));;
                  emit WsClose;;
                  ret None
              | Some vm_sshInfo =>
                  sshKey <-
                    (match sshKeyId vm_sshInfo with
                     | Some id =>
                         if JsNumber.truthy id then
                           emit (DbFindSshKey id);;
                           ret (sshKeysTable_findFirst env id)
                         else ret None
                     | None => ret None
                     end);;
                  let privateKey :=
                    match sshKey with
                    | Some key => Some (key_privateKey key)
                    | None => privateKey vm_sshInfo
                    end in
                  emit (SetInterval 30000);;
                  emit (WsSend connecting_notice);;
                  let config := connect_config vm vm_sshInfo privateKey in
                  emit (ConnConnect config);;
                  match connect_error env config with
                  | Some err => throw (ThrownError err)
                  | None =>
                      ret (Some (mkSession cols rows true Connecting))
                  end
              end
          end
      | _ =>
          emit (WsSend (js "[ERROR] Invalid request"));;
          emit WsClose;;
          ret None
      end
  end.

(** An error of the ssh2 client: its message and, when the client sets
    one, the stage it arose at ([err.level]). *)
Record SshError := mkSshError {
  ssh_message : jsstring;
  ssh_level : option jsstring
}.

(** The heartbeat: the callback of [setInterval], with the transport's
    [readyState] as it finds it. *)
Definition pingInterval_tick (readyState : ReadyState) : M unit :=
  match readyState with
  | OPEN => emit WsPing
  | _ => ret tt
  end.

(** [conn.once("ready", ...)]. *)
Definition conn_once_ready (cols rows : number) : M unit :=
  emit (ConnShell {|
    pty_term := js "xterm-256color";
    pty_cols := cols;
    pty_rows := rows;
    pty_width := cols * 7;
    pty_height := rows * 14
  |}).

(** The callback of [conn.shell]: [true] when the shell is open and the
    listeners on [stream] and [ws] are registered. *)
Definition shell_callback (err : option JsError) : M bool :=
  match err with
  | Some err =>
      emit (WsSend (js "[ERROR] Shell error: " ++ err_message err));;
      emit WsClose;;
      ret false
  | None =>
      let clearScreenCommand := [27] ++ js "[2J" in
      emit (WsSend clearScreenCommand);;
      emit (StreamSetEncoding (js "utf8"));;
      ret true
  end.

(** [stream.on("close", ...)]. *)
Definition stream_on_close (code : Z) : M unit :=
  emit ClearInterval;;
  emit (WsSend ([10] ++ js "Connection closed (" ++ of_integer code
                  ++ js ")" ++ [10]));;
  emit ConnEnd;;
  emit WsClose.

(** [stream.on("data", ...)]: the stream decodes, [data] is a string. *)
Definition stream_on_data (data : jsstring) : M unit :=
  emit (WsSend data).

(** [stream.stderr.on("data", ...)]: [data] is a [Buffer]. *)
Definition stderr_on_data (data : list Z) : M unit :=
  emit (WsSend (Utf8.decode data));;
  emit (ConsoleError [js "Error: "; Utf8.decode data]).

(** The inner [try] block of the "message" listener: decode the message
    as a control object and act on it. *)
Definition decode_and_dispatch (message : RawData) : M unit :=
  data <- JSON_parse (RawData_toString message);;
  data_type <- get_property data "type";;
  if strict_eq_string data_type "resize" then
    data_rows <- get_property data "rows";;
    match data_rows with
    | JNumber rows =>
        data_cols <- get_property data "cols";;
        match data_cols with
        | JNumber cols =>
            emit (StreamSetWindow rows cols
                    (cols * 7) (rows * 14))
        | _ => ret tt
        end
    | _ => ret tt
    end
  else
    data_data <- get_property data "data";;
    match data_data with
    | JString text => emit (StreamWrite text)
    | _ => emit (StreamWrite (RawData_toString message))
    end.

(** [command.toString()], where [command] is the decoded text of a
    [Buffer] and the message itself otherwise. *)
Definition command_toString (command : jsstring + RawData) : jsstring :=
  match command with
  | inl text => text
  | inr raw => RawData_toString raw
  end.

(** The inner [catch]: if JSON parsing fails, treat as plain command;
    re-throw other errors. *)
Definition raw_fallback (command : jsstring + RawData) (error : Thrown)
  : M unit :=
  if instanceof_SyntaxError error
  then emit (StreamWrite (command_toString command))
  else throw error.

(** [error instanceof Error ? error.message : "Unknown error"]. *)
Definition errorMessage (error : Thrown) : jsstring :=
  match error with
  | ThrownError e => err_message e
  | ThrownValue _ => js "Unknown error"
  end.

(** The outer [catch]. *)
Definition report_error (error : Thrown) : M unit :=
  emit (WsSend (js "[ERROR] " ++ errorMessage error)).

(** [ws.on("message", ...)]. *)
Definition ws_on_message (message : RawData) : M unit :=
  try_catch
    (let command : jsstring + RawData :=
       match message with
       | RBuffer bytes => inl (Utf8.decode bytes)
       | _ => inr message
       end in
     try_catch (decode_and_dispatch message) (raw_fallback command))
    report_error.

(** [ws.on("close", ...)]. *)
Definition ws_on_close : M unit :=
  emit ClearInterval;;
  emit (ConsoleLog [js "close"]);;
  emit StreamEnd;;
  emit ConnEnd.

(** [stream.on("error", ...)]. *)
Definition stream_on_error (err : JsError) : M unit :=
  emit (ConsoleError [js "Stream error:"; err_message err]);;
  emit (WsSend (js "[ERROR] Stream error: " ++ err_message err)).

(** [String(value)] for an optional string. *)
Definition String_of_optional (value : option jsstring) : jsstring :=
  match value with
  | Some text => text
  | None => js "undefined"
  end.

(** [err.level === "client-authentication"]. *)
Definition is_client_authentication (level : option jsstring) : bool :=
  match level with
  | Some l => JsString.eqb l (js "client-authentication")
  | None => false
  end.

(** [conn.on("error", ...)]. *)
Definition conn_on_error (err : SshError) : M unit :=
  emit (ConsoleLog [js "error"; ssh_message err]);;
  emit ClearInterval;;
  (if is_client_authentication (ssh_level err) then
     emit (WsSend
       (Utf8.decode (source_bytes
          "[ERROR] Authentication failed: Invalid SSH private key. ❌ Error: ")
        ++ ssh_message err ++ js " " ++ String_of_optional (ssh_level err)))
   else
     emit (WsSend (js "[ERROR] SSH connection error: " ++ ssh_message err)));;
  emit ConnEnd;;
  emit WsClose.

(** What can happen to a session once [conn.connect] was called. *)
Inductive Event :=
| Tick (readyState : ReadyState)        (* the heartbeat interval elapsed *)
| ConnReady                             (* "ready" on [conn] *)
| ConnError (err : SshError)            (* "error" on [conn] *)
| ShellResult (err : option JsError)    (* [conn.shell] calls back *)
| StreamClose (code : Z)                (* "close" on [stream] *)
| StreamData (data : jsstring)          (* "data" on [stream] *)
| StderrData (data : list Z)            (* "data" on [stream.stderr] *)
| StreamError (err : JsError)           (* "error" on [stream] *)
| WsMessage (message : RawData)         (* "message" on [ws] *)
| WsCloseEvent.                         (* "close" on [ws] *)

Definition with_phase (s : Session) (p : Phase) : Session :=
  mkSession (cols s) (rows s) (pingInterval s) p.

Definition cleared (s : Session) : Session :=
  mkSession (cols s) (rows s) false (phase s).

(** One event: the listener registered for it runs, if there is one. An
    event nobody listens to is dropped by the emitter. *)
Definition dispatch (s : Session) (ev : Event) : M Session :=
  match ev with
  | Tick readyState =>
      if pingInterval s then pingInterval_tick readyState;; ret s
      else ret s
  | ConnReady =>
      match phase s with
      | Connecting =>
          conn_once_ready (cols s) (rows s);;
          ret (with_phase s ShellRequested)
      | _ => ret s
      end
  | ConnError err => conn_on_error err;; ret (cleared s)
  | ShellResult err =>
      match phase s with
      | ShellRequested =>
          opened <- shell_callback err;;
          ret (with_phase s (if opened then ShellOpen else ShellFailed))
      | _ => ret s
      end
  | StreamClose code =>
      match phase s with
      | ShellOpen => stream_on_close code;; ret (cleared s)
      | _ => ret s
      end
  | StreamData data =>
      match phase s with
      | ShellOpen => stream_on_data data;; ret s
      | _ => ret s
      end
  | StderrData data =>
      match phase s with
      | ShellOpen => stderr_on_data data;; ret s
      | _ => ret s
      end
  | StreamError err =>
      match phase s with
      | ShellOpen => stream_on_error err;; ret s
      | _ => ret s
      end
  | WsMessage message =>
      match phase s with
      | ShellOpen => ws_on_message message;; ret s
      | _ => ret s
      end
  | WsCloseEvent =>
      match phase s with
      | ShellOpen => ws_on_close;; ret (cleared s)
      | _ => ret s
      end
  end.

(** A session's listeners over a sequence of events, in order. *)
Fixpoint run (s : Session) (events : list Event) : M Session :=
  match events with
  | [] => ret s
  | ev :: rest => s' <- dispatch s ev;; run s' rest
  end.

(** One connection from the upgrade request on. When the "connection"
    listener throws, nothing handles the rejection and the run ends with
    the error. *)
Definition serve (env : Env) (req : IncomingMessage) (events : list Event)
  : M (option Session) :=
  if upgrade req then
    accepted <- onConnection env req;;
    match accepted with
    | Some s => s' <- run s events;; ret (Some s')
    | None => ret None
    end
  else ret None.

(* ================================================================= *)
(** ** Reading a trace *)

(** The bytes a trace writes to the shell's input: a string chunk goes
    out in UTF-8. *)
Fixpoint shell_input (t : list Effect) : list Z :=
  match t with
  | [] => []
  | StreamWrite chunk :: rest => Utf8.encode chunk ++ shell_input rest
  | _ :: rest => shell_input rest
  end.

Definition is_ws_close (e : Effect) : bool :=
  match e with WsClose => true | _ => false end.

Definition is_conn_end (e : Effect) : bool :=
  match e with ConnEnd => true | _ => false end.

Definition is_ws_send (e : Effect) : bool :=
  match e with WsSend _ => true | _ => false end.

Definition is_stream_write (e : Effect) : bool :=
  match e with StreamWrite _ => true | _ => false end.

Definition is_resolver_call (e : Effect) : bool :=
  match e with DbFindVm _ | DbFindSshKey _ => true | _ => false end.

Definition is_conn_connect (e : Effect) : bool :=
  match e with ConnConnect _ => true | _ => false end.

(** The events that come from the shell stream and its error channel. *)
Definition from_stream (ev : Event) : bool :=
  match ev with
  | StreamClose _ | StreamData _ | StderrData _ | StreamError _ => true
  | _ => false
  end.

(** The events whose listener ends the remote connection, and those
    whose listener closes the transport, once the shell is open. *)
Definition ends_remote (ev : Event) : bool :=
  match ev with
  | StreamClose _ | WsCloseEvent | ConnError _ => true
  | _ => false
  end.

Definition closes_transport (ev : Event) : bool :=
  match ev with
  | StreamClose _ | ConnError _ => true
  | _ => false
  end.

Definition is_stream_close (ev : Event) : bool :=
  match ev with StreamClose _ => true | _ => false end.

Definition is_transport_close (ev : Event) : bool :=
  match ev with WsCloseEvent => true | _ => false end.

Definition is_conn_error (ev : Event) : bool :=
  match ev with ConnError _ => true | _ => false end.

(** How often an event of some kind occurs. *)
Definition occurrences (p : Event -> bool) (events : list Event) : nat :=
  List.length (filter p events).

Definition count (p : Effect -> bool) (t : list Effect) : nat :=
  List.length (filter p t).

Definition is_set_interval (e : Effect) : bool :=
  match e with SetInterval _ => true | _ => false end.

Definition is_ws_ping (e : Effect) : bool :=
  match e with WsPing => true | _ => false end.

Definition is_conn_shell (e : Effect) : bool :=
  match e with ConnShell _ => true | _ => false end.

Definition is_stream_end (e : Effect) : bool :=
  match e with StreamEnd => true | _ => false end.

Definition is_set_encoding (e : Effect) : bool :=
  match e with StreamSetEncoding _ => true | _ => false end.

(** The frames a trace sends to the peer, in order. *)
Fixpoint sent_frames (t : list Effect) : list jsstring :=
  match t with
  | [] => []
  | WsSend data :: rest => data :: sent_frames rest
  | _ :: rest => sent_frames rest
  end.

(** Every [ws.close()] of a trace comes after a [ws.send] of the same
    trace; [sent] tells whether a frame was sent already. *)
Fixpoint closes_after_notice (sent : bool) (t : list Effect) : bool :=
  match t with
  | [] => true
  | WsSend _ :: rest => closes_after_notice true rest
  | WsClose :: rest => sent && closes_after_notice sent rest
  | _ :: rest => closes_after_notice sent rest
  end.

(** A chunk of shell output: text from the stream, bytes from its error
    channel. *)
Definition output_event (chunk : jsstring + list Z) : Event :=
  match chunk with
  | inl data => StreamData data
  | inr bytes => StderrData bytes
  end.

(** The frame the peer gets for a chunk of shell output. *)
Definition output_frame (chunk : jsstring + list Z) : jsstring :=
  match chunk with
  | inl data => data
  | inr bytes => Utf8.decode bytes
  end.

(** The row the key store gives for the stored parameters: none when
    they name no key (or the falsy identifier 0), when the store is not
    asked. *)
Definition stored_key (env : Env) (info : SshInfo) : option SshKey :=
  match sshKeyId info with
  | Some id => if JsNumber.truthy id then sshKeysTable_findFirst env id
               else None
  | None => None
  end.

(** The key-store query of the "connection" listener, if it makes one. *)
Definition key_lookup (info : SshInfo) : list Effect :=
  match sshKeyId info with
  | Some id => if JsNumber.truthy id then [DbFindSshKey id] else []
  | None => []
  end.

(** How many shell requests a session in a given phase can still make,
    and how many times it can still register the stream's listeners. *)
Definition shell_requests_left (p : Phase) : nat :=
  match p with Connecting => 1 | _ => 0 end.

Definition shell_openings_left (p : Phase) : nat :=
  match p with Connecting | ShellRequested => 1 | _ => 0 end.

(** A decoded value that is neither an object nor [null]. *)
Definition is_scalar_or_array (v : JsValue) : bool :=
  match v with
  | JBool _ | JNumber _ | JString _ | JArray _ => true
  | JUndefined | JNull | JObject _ => false
  end.


(* ================================================================= *)
(** * Properties *)

(** ** The built-ins on sample inputs *)

Example decode_ascii : Utf8.decode (source_bytes "ls -la") = js "ls -la".
Proof. reflexivity. Qed.

Example decode_three_byte_sequence : Utf8.decode [0xE6; 0xAD; 0xA3] = [0x6B63].
Proof. reflexivity. Qed.

Example decode_four_byte_sequence :
  Utf8.decode [0xF0; 0x9F; 0x98; 0x80] = [0xD83D; 0xDE00].
Proof. reflexivity. Qed.

Example decode_truncated_sequence :
  Utf8.decode [0xE6; 0xAD; 0x41] = [0xFFFD; 0x41].
Proof. reflexivity. Qed.

Example decode_overlong_sequence :
  Utf8.decode [0xC0; 0x80] = [0xFFFD; 0xFFFD].
Proof. reflexivity. Qed.

Example encode_lone_surrogate : Utf8.encode [0xD83D] = [0xEF; 0xBF; 0xBD].
Proof. reflexivity. Qed.

Example parseInt_digits : parseInt (js "120") = 120%float.
Proof. reflexivity. Qed.

Example parseInt_prefix : parseInt (js "  -12px") = (-12)%float.
Proof. reflexivity. Qed.

Example parseInt_hexadecimal : parseInt (js "0x1F") = 31%float.
Proof. reflexivity. Qed.

Example parseInt_empty : parseInt [] = nan.
Proof. reflexivity. Qed.

Example Number_empty : Number_of_string [] = 0%float.
Proof. reflexivity. Qed.

Example Number_fraction : Number_of_string (js " 1.5e1 ") = 15%float.
Proof. reflexivity. Qed.

Example Number_trailing_text : Number_of_string (js "12px") = nan.
Proof. reflexivity. Qed.

Example of_integer_zero : of_integer 0 = js "0".
Proof. reflexivity. Qed.

Example of_integer_exit_status : of_integer 127 = js "127".
Proof. reflexivity. Qed.

Example parse_object :
  JSON.parse_text (Utf8.decode (quoted_bytes "{'a': [1, 2.5, -0], 'b': null}"))
  = Some (JObject [(js "a", JArray [JNumber 1; JNumber 2.5; JNumber (-0)]);
                   (js "b", JNull)]).
Proof. reflexivity. Qed.

Example parse_escapes :
  JSON.parse_text (Utf8.decode (quoted_bytes "'a\nA\\'"))
  = Some (JString [97; 10; 65; 92]).
Proof. reflexivity. Qed.

Example parse_repeated_key :
  match JSON.parse_text (Utf8.decode (quoted_bytes "{'k': 1, 'k': 2}")) with
  | Some (JObject members) => lookup members (js "k")
  | _ => None
  end = Some (JNumber 2).
Proof. reflexivity. Qed.

Example parse_scalar : JSON.parse_text (js "12") = Some (JNumber 12).
Proof. reflexivity. Qed.

Example parse_rejects_text : JSON.parse_text (js "ls -la") = None.
Proof. reflexivity. Qed.

Example parse_rejects_trailing_comma : JSON.parse_text (js "[1,]") = None.
Proof. reflexivity. Qed.

Example parse_rejects_leading_zero : JSON.parse_text (js "01") = None.
Proof. reflexivity. Qed.

Example parse_rejects_empty : JSON.parse_text [] = None.
Proof. reflexivity. Qed.

Example parse_rejects_open_array : JSON.parse_text (js "[[1]") = None.
Proof. reflexivity. Qed.

(** ** UTF-8: decoding well-formed bytes loses nothing *)

Module Utf8Facts.
Import Utf8.

Lemma in_range_true lo hi b : in_range lo hi b = true <-> lo <= b <= hi.
Proof. unfold in_range. rewrite andb_true_iff, !Z.leb_le. tauto. Qed.

Lemma in_range_false lo hi b : in_range lo hi b = false <-> b < lo \/ hi < b.
Proof.
  unfold in_range. rewrite andb_false_iff, !Z.leb_gt. tauto.
Qed.

(** Joining a multiple of [2^n] with a value below [2^n] adds them. *)
Lemma lor_high_low a b n :
  0 <= n -> 0 <= b < 2 ^ n -> Z.lor (a * 2 ^ n) b = a * 2 ^ n + b.
Proof.
  intros Hn Hb.
  assert (Hland : Z.land (a * 2 ^ n) b = 0).
  { apply Z.bits_inj'. intros i Hi.
    rewrite Z.land_spec, Z.bits_0.
    destruct (Z.lt_ge_cases i n) as [Hlt|Hge].
    - rewrite Z.mul_pow2_bits_low by lia. reflexivity.
    - assert (Hbit : Z.testbit b i = false).
      { destruct (Z.eq_dec b 0) as [->|Hnz]; [apply Z.bits_0|].
        apply Z.bits_above_log2; [lia|].
        apply Z.lt_le_trans with n; [apply Z.log2_lt_pow2; lia | lia]. }
      rewrite Hbit. apply andb_false_r. }
  pose proof (Z.add_lor_land (a * 2 ^ n) b). lia.
Qed.

Lemma land_mask b n : 0 <= n -> Z.land b (2 ^ n - 1) = b mod 2 ^ n.
Proof.
  intros Hn. rewrite <- Z.land_ones by assumption.
  rewrite Z.ones_equiv, <- Z.sub_1_r. reflexivity.
Qed.

(** A continuation byte adds its six low bits to the code point. *)
Lemma continue_code_point cp b :
  0x80 <= b <= 0xBF ->
  Z.lor (Z.shiftl cp 6) (Z.land b 0x3F) = cp * 64 + (b - 0x80).
Proof.
  intros Hb. rewrite Z.shiftl_mul_pow2 by lia.
  change 0x3F with (2 ^ 6 - 1). rewrite land_mask by lia.
  rewrite lor_high_low by (try lia; apply Z.mod_pos_bound; lia).
  change (2 ^ 6) with 64. Z.to_euclidean_division_equations. lia.
Qed.

Lemma lead_bits b k base :
  0 <= k -> base mod 2 ^ k = 0 -> base <= b < base + 2 ^ k ->
  Z.land b (2 ^ k - 1) = b - base.
Proof.
  intros Hk Hbase Hb. rewrite land_mask by assumption.
  assert (0 < 2 ^ k) by (apply Z.pow_pos_nonneg; lia).
  symmetry. apply Z.mod_unique with (q := base / 2 ^ k); [lia|].
  pose proof (Z.div_mod base (2 ^ k)). lia.
Qed.


Ltac range_bool :=
  repeat match goal with
  | |- context [in_range ?lo ?hi ?b] =>
      first [ rewrite (proj2 (in_range_true lo hi b)) by (try assumption; lia)
            | rewrite (proj2 (in_range_false lo hi b)) by lia ]
  end.

Ltac div_lia := Z.to_euclidean_division_equations; lia.

Lemma lead_1 b : 0 <= b <= 0x7F -> lead b = (Idle, [b]).
Proof. intros H. unfold lead. range_bool. reflexivity. Qed.

Lemma lead_2 b :
  0xC2 <= b <= 0xDF -> lead b = (Pending (b - 0xC0) 1 0x80 0xBF, []).
Proof.
  intros H. unfold lead. range_bool.
  change 0x1F with (2 ^ 5 - 1). rewrite (lead_bits b 5 0xC0) by (cbn; lia).
  reflexivity.
Qed.

Lemma lead_3 b :
  0xE0 <= b <= 0xEF ->
  lead b = (Pending (b - 0xE0) 2 (if b =? 0xE0 then 0xA0 else 0x80)
                    (if b =? 0xED then 0x9F else 0xBF), []).
Proof.
  intros H. unfold lead. range_bool.
  change 0x0F with (2 ^ 4 - 1). rewrite (lead_bits b 4 0xE0) by (cbn; lia).
  reflexivity.
Qed.

Lemma lead_4 b :
  0xF0 <= b <= 0xF4 ->
  lead b = (Pending (b - 0xF0) 3 (if b =? 0xF0 then 0x90 else 0x80)
                    (if b =? 0xF4 then 0x8F else 0xBF), []).
Proof.
  intros H. unfold lead. range_bool.
  change 0x07 with (2 ^ 3 - 1). rewrite (lead_bits b 3 0xF0) by (cbn; lia).
  reflexivity.
Qed.

Lemma step_last cp lo hi b :
  lo <= b <= hi -> 0x80 <= b <= 0xBF ->
  step (Pending cp 1 lo hi) b = (Idle, code_units_of (cp * 64 + (b - 0x80))).
Proof.
  intros Hr Hb. cbn [step]. range_bool.
  rewrite continue_code_point by lia. reflexivity.
Qed.

Lemma step_more cp n lo hi b :
  lo <= b <= hi -> 0x80 <= b <= 0xBF ->
  step (Pending cp (S (S n)) lo hi) b
  = (Pending (cp * 64 + (b - 0x80)) (S n) 0x80 0xBF, []).
Proof.
  intros Hr Hb. cbn [step]. range_bool.
  rewrite continue_code_point by lia. reflexivity.
Qed.

Lemma decode_1 b r : 0 <= b <= 0x7F -> decode (b :: r) = b :: decode r.
Proof.
  intros H. unfold decode. cbn [decode_from step]. rewrite lead_1 by lia.
  reflexivity.
Qed.

Lemma decode_2 b0 b1 r :
  0xC2 <= b0 <= 0xDF -> 0x80 <= b1 <= 0xBF ->
  decode (b0 :: b1 :: r) = code_units_of (cp2 b0 b1) ++ decode r.
Proof.
  intros H0 H1. unfold decode.
  change (decode_from Idle (b0 :: b1 :: r))
    with (let (st, out) := lead b0 in out ++ decode_from st (b1 :: r)).
  rewrite lead_2 by lia. cbn [app].
  change (decode_from ?st (b1 :: r))
    with (let (st', out) := step st b1 in out ++ decode_from st' r).
  rewrite step_last by lia. reflexivity.
Qed.

Lemma decode_3 b0 b1 b2 r :
  0xE0 <= b0 <= 0xEF ->
  (if b0 =? 0xE0 then 0xA0 else 0x80) <= b1
    <= (if b0 =? 0xED then 0x9F else 0xBF) ->
  0x80 <= b2 <= 0xBF ->
  decode (b0 :: b1 :: b2 :: r) = code_units_of (cp3 b0 b1 b2) ++ decode r.
Proof.
  intros H0 H1 H2.
  assert (0x80 <= b1 <= 0xBF)
    by (destruct (b0 =? 0xE0), (b0 =? 0xED); lia).
  unfold decode.
  change (decode_from Idle (b0 :: b1 :: b2 :: r))
    with (let (st, out) := lead b0 in
          out ++ decode_from st (b1 :: b2 :: r)).
  rewrite lead_3 by lia. cbn [app].
  change (decode_from ?st (b1 :: b2 :: r))
    with (let (st', out) := step st b1 in out ++ decode_from st' (b2 :: r)).
  rewrite step_more by (assumption || lia). cbn [app].
  change (decode_from ?st (b2 :: r))
    with (let (st', out) := step st b2 in out ++ decode_from st' r).
  rewrite step_last by lia.
  reflexivity.
Qed.

Lemma decode_4 b0 b1 b2 b3 r :
  0xF0 <= b0 <= 0xF4 ->
  (if b0 =? 0xF0 then 0x90 else 0x80) <= b1
    <= (if b0 =? 0xF4 then 0x8F else 0xBF) ->
  0x80 <= b2 <= 0xBF -> 0x80 <= b3 <= 0xBF ->
  decode (b0 :: b1 :: b2 :: b3 :: r)
  = code_units_of (cp4 b0 b1 b2 b3) ++ decode r.
Proof.
  intros H0 H1 H2 H3.
  assert (0x80 <= b1 <= 0xBF)
    by (destruct (b0 =? 0xF0), (b0 =? 0xF4); lia).
  unfold decode.
  change (decode_from Idle (b0 :: b1 :: b2 :: b3 :: r))
    with (let (st, out) := lead b0 in
          out ++ decode_from st (b1 :: b2 :: b3 :: r)).
  rewrite lead_4 by lia. cbn [app].
  change (decode_from ?st (b1 :: b2 :: b3 :: r))
    with (let (st', out) := step st b1 in
          out ++ decode_from st' (b2 :: b3 :: r)).
  rewrite step_more by (assumption || lia). cbn [app].
  change (decode_from ?st (b2 :: b3 :: r))
    with (let (st', out) := step st b2 in out ++ decode_from st' (b3 :: r)).
  rewrite step_more by lia. cbn [app].
  change (decode_from ?st (b3 :: r))
    with (let (st', out) := step st b3 in out ++ decode_from st' r).
  rewrite step_last by lia.
  reflexivity.
Qed.


(** The code points of well-formed sequences, by length. *)
Lemma cp2_range b0 b1 :
  0xC2 <= b0 <= 0xDF -> 0x80 <= b1 <= 0xBF -> 0x80 <= cp2 b0 b1 < 0x800.
Proof. unfold cp2. lia. Qed.

Lemma cp3_range b0 b1 b2 :
  0xE0 <= b0 <= 0xEF ->
  (if b0 =? 0xE0 then 0xA0 else 0x80) <= b1
    <= (if b0 =? 0xED then 0x9F else 0xBF) ->
  0x80 <= b2 <= 0xBF ->
  0x800 <= cp3 b0 b1 b2 < 0x10000
  /\ ~ 0xD800 <= cp3 b0 b1 b2 <= 0xDFFF.
Proof.
  unfold cp3. intros H0 H1 H2.
  destruct (Z.eqb_spec b0 0xE0), (Z.eqb_spec b0 0xED); lia.
Qed.

Lemma cp4_range b0 b1 b2 b3 :
  0xF0 <= b0 <= 0xF4 ->
  (if b0 =? 0xF0 then 0x90 else 0x80) <= b1
    <= (if b0 =? 0xF4 then 0x8F else 0xBF) ->
  0x80 <= b2 <= 0xBF -> 0x80 <= b3 <= 0xBF ->
  0x10000 <= cp4 b0 b1 b2 b3 <= 0x10FFFF.
Proof.
  unfold cp4. intros H0 H1 H2 H3.
  destruct (Z.eqb_spec b0 0xF0), (Z.eqb_spec b0 0xF4); lia.
Qed.

Lemma lor_prefix p k n y :
  p = k * 2 ^ n -> 0 <= n -> 0 <= y < 2 ^ n -> Z.lor p y = p + y.
Proof. intros -> Hn Hy. apply lor_high_low; assumption. Qed.

Lemma low_six cp : Z.lor 0x80 (Z.land cp 0x3F) = 0x80 + cp mod 64.
Proof.
  change 0x3F with (2 ^ 6 - 1). rewrite land_mask by lia.
  apply (lor_prefix 0x80 2 6); [reflexivity | lia |].
  apply Z.mod_pos_bound. reflexivity.
Qed.

Lemma encode_cp2 b0 b1 :
  0xC2 <= b0 <= 0xDF -> 0x80 <= b1 <= 0xBF ->
  encode_code_point (cp2 b0 b1) = [b0; b1].
Proof.
  intros H0 H1. pose proof (cp2_range b0 b1 H0 H1) as Hcp.
  unfold encode_code_point.
  destruct (Z.ltb_spec (cp2 b0 b1) 0x80); [lia|].
  destruct (Z.ltb_spec (cp2 b0 b1) 0x800); [|lia].
  rewrite low_six, Z.shiftr_div_pow2 by lia.
  rewrite (lor_prefix 0xC0 3 6) by (try reflexivity; unfold cp2; div_lia).
  unfold cp2. f_equal; [|f_equal]; div_lia.
Qed.

Lemma encode_cp3 b0 b1 b2 :
  0xE0 <= b0 <= 0xEF -> 0x80 <= b1 <= 0xBF -> 0x80 <= b2 <= 0xBF ->
  0x800 <= cp3 b0 b1 b2 ->
  encode_code_point (cp3 b0 b1 b2) = [b0; b1; b2].
Proof.
  intros H0 H1 H2 Hcp.
  unfold encode_code_point.
  destruct (Z.ltb_spec (cp3 b0 b1 b2) 0x80); [lia|].
  destruct (Z.ltb_spec (cp3 b0 b1 b2) 0x800); [lia|].
  destruct (Z.ltb_spec (cp3 b0 b1 b2) 0x10000); [|unfold cp3 in *; lia].
  rewrite !low_six, !Z.shiftr_div_pow2 by lia.
  rewrite (lor_prefix 0xE0 7 5) by (try reflexivity; unfold cp3; div_lia).
  unfold cp3. f_equal; [|f_equal; [|f_equal]]; div_lia.
Qed.

Lemma encode_cp4 b0 b1 b2 b3 :
  0xF0 <= b0 <= 0xF4 -> 0x80 <= b1 <= 0xBF -> 0x80 <= b2 <= 0xBF ->
  0x80 <= b3 <= 0xBF -> 0x10000 <= cp4 b0 b1 b2 b3 ->
  encode_code_point (cp4 b0 b1 b2 b3) = [b0; b1; b2; b3].
Proof.
  intros H0 H1 H2 H3 Hcp.
  unfold encode_code_point.
  destruct (Z.ltb_spec (cp4 b0 b1 b2 b3) 0x80); [lia|].
  destruct (Z.ltb_spec (cp4 b0 b1 b2 b3) 0x800); [lia|].
  destruct (Z.ltb_spec (cp4 b0 b1 b2 b3) 0x10000); [lia|].
  rewrite !low_six, !Z.shiftr_div_pow2 by lia.
  rewrite (lor_prefix 0xF0 15 4) by (try reflexivity; unfold cp4; div_lia).
  unfold cp4. f_equal; [|f_equal; [|f_equal; [|f_equal]]]; div_lia.
Qed.


Lemma encode_units_bmp cp us :
  0 <= cp < 0x10000 -> ~ 0xD800 <= cp <= 0xDFFF ->
  encode (code_units_of cp ++ us) = encode_code_point cp ++ encode us.
Proof.
  intros Hcp Hsur. unfold code_units_of.
  destruct (Z.ltb_spec cp 0x10000); [|lia].
  cbn [app encode]. unfold is_high, is_low. range_bool. reflexivity.
Qed.

Lemma encode_units_astral cp us :
  0x10000 <= cp <= 0x10FFFF ->
  encode (code_units_of cp ++ us) = encode_code_point cp ++ encode us.
Proof.
  intros Hcp. unfold code_units_of.
  destruct (Z.ltb_spec cp 0x10000); [lia|].
  rewrite Z.shiftr_div_pow2 by lia.
  change 0x3FF with (2 ^ 10 - 1). rewrite land_mask by lia.
  cbn [app encode]. unfold is_high, is_low.
  rewrite (proj2 (in_range_true _ _ (0xD800 + _))) by div_lia.
  rewrite (proj2 (in_range_true _ _ (0xDC00 + _))) by div_lia.
  rewrite Z.shiftl_mul_pow2 by lia.
  f_equal. f_equal. div_lia.
Qed.

(** The shapes a well-formed sequence can start with. *)
Lemma well_formed_cons b0 r0 :
  well_formed (b0 :: r0) = true ->
  (0 <= b0 <= 0x7F /\ well_formed r0 = true)
  \/ (exists b1 r1, r0 = b1 :: r1 /\ 0xC2 <= b0 <= 0xDF
        /\ 0x80 <= b1 <= 0xBF /\ well_formed r1 = true)
  \/ (exists b1 b2 r2, r0 = b1 :: b2 :: r2 /\ 0xE0 <= b0 <= 0xEF
        /\ (if b0 =? 0xE0 then 0xA0 else 0x80) <= b1
             <= (if b0 =? 0xED then 0x9F else 0xBF)
        /\ 0x80 <= b2 <= 0xBF /\ well_formed r2 = true)
  \/ (exists b1 b2 b3 r3, r0 = b1 :: b2 :: b3 :: r3 /\ 0xF0 <= b0 <= 0xF4
        /\ (if b0 =? 0xF0 then 0x90 else 0x80) <= b1
             <= (if b0 =? 0xF4 then 0x8F else 0xBF)
        /\ 0x80 <= b2 <= 0xBF /\ 0x80 <= b3 <= 0xBF
        /\ well_formed r3 = true).
Proof.
  cbn [well_formed].
  destruct (in_range 0x00 0x7F b0) eqn:H1.
  { intros Hwf. left. apply in_range_true in H1. auto. }
  destruct (in_range 0xC2 0xDF b0) eqn:H2.
  { destruct r0 as [|b1 r1]; [discriminate|].
    rewrite andb_true_iff, in_range_true. intros [Hb1 Hwf].
    right; left. apply in_range_true in H2. eauto 10. }
  destruct (in_range 0xE0 0xEF b0) eqn:H3.
  { destruct r0 as [|b1 [|b2 r2]]; try discriminate.
    rewrite !andb_true_iff, !in_range_true. intros [[Hb1 Hb2] Hwf].
    right; right; left. apply in_range_true in H3. eauto 10. }
  destruct (in_range 0xF0 0xF4 b0) eqn:H4; [|discriminate].
  destruct r0 as [|b1 [|b2 [|b3 r3]]]; try discriminate.
  rewrite !andb_true_iff, !in_range_true. intros [[[Hb1 Hb2] Hb3] Hwf].
  right; right; right. apply in_range_true in H4. eauto 12.
Qed.

(** Decoding well-formed UTF-8 and encoding the text again gives the
    bytes back. *)
Lemma encode_decode bytes :
  well_formed bytes = true -> encode (decode bytes) = bytes.
Proof.
  remember (List.length bytes) as n eqn:Hn.
  revert bytes Hn. induction n as [n IH] using lt_wf_ind.
  intros [|b0 r0] Hn Hwf; [reflexivity|].
  destruct (well_formed_cons b0 r0 Hwf)
    as [(H0 & Hr)
       |[(b1 & r1 & -> & H0 & H1 & Hr)
        |[(b1 & b2 & r2 & -> & H0 & H1 & H2 & Hr)
         |(b1 & b2 & b3 & r3 & -> & H0 & H1 & H2 & H3 & Hr)]]];
    cbn [List.length] in Hn.
  - rewrite decode_1 by assumption.
    replace (b0 :: decode r0) with (code_units_of b0 ++ decode r0)
      by (unfold code_units_of;
          destruct (Z.ltb_spec b0 0x10000); [reflexivity | lia]).
    rewrite encode_units_bmp by lia.
    rewrite (IH (List.length r0)) by (lia || auto).
    unfold encode_code_point. destruct (Z.ltb_spec b0 0x80); [reflexivity|lia].
  - rewrite decode_2 by assumption.
    pose proof (cp2_range b0 b1 H0 H1).
    rewrite encode_units_bmp by lia.
    rewrite encode_cp2 by assumption.
    rewrite (IH (List.length r1)) by (lia || auto). reflexivity.
  - rewrite decode_3 by assumption.
    destruct (cp3_range b0 b1 b2 H0 H1 H2) as [Hcp Hsur].
    assert (0x80 <= b1 <= 0xBF)
      by (destruct (b0 =? 0xE0), (b0 =? 0xED); lia).
    rewrite encode_units_bmp by (lia || assumption).
    rewrite encode_cp3 by (lia || assumption).
    rewrite (IH (List.length r2)) by (lia || auto). reflexivity.
  - rewrite decode_4 by assumption.
    pose proof (cp4_range b0 b1 b2 b3 H0 H1 H2 H3) as Hcp.
    assert (0x80 <= b1 <= 0xBF)
      by (destruct (b0 =? 0xF0), (b0 =? 0xF4); lia).
    rewrite encode_units_astral by assumption.
    rewrite encode_cp4 by (lia || assumption).
    rewrite (IH (List.length r3)) by (lia || auto). reflexivity.
Qed.

End Utf8Facts.

(** ** The "message" listener *)

Section MessageListener.

Variable message : RawData.

(** What the inner [try] block does once the text decoded to an
    object. *)
Lemma decode_and_dispatch_object members :
  JSON.parse_text (RawData_toString message) = Some (JObject members) ->
  decode_and_dispatch message =
    let member name :=
      match lookup members (js name) with
      | Some v => v
      | None => JUndefined
      end in
    if strict_eq_string (member "type"%string) "resize" then
      match member "rows"%string, member "cols"%string with
      | JNumber rows, JNumber cols =>
          emit (StreamSetWindow rows cols (cols * 7) (rows * 14))
      | _, _ => ret tt
      end
    else
      match member "data"%string with
      | JString text => emit (StreamWrite text)
      | _ => emit (StreamWrite (RawData_toString message))
      end.
Proof.
  intros Hparse. unfold decode_and_dispatch, JSON_parse.
  rewrite Hparse. cbn [bind ret get_property app].
  destruct (strict_eq_string _ "resize").
  - cbn [bind ret get_property app].
    destruct (lookup members (js "rows")) as [[]|];
      cbn [bind ret get_property app]; try reflexivity;
      destruct (lookup members (js "cols")) as [[]|]; reflexivity.
  - cbn [bind ret get_property app].
    destruct (lookup members (js "data")) as [[]|]; reflexivity.
Qed.

(** A computation that returns is not touched by the handlers around
    it. *)
Lemma try_catch_returns {A} (body : M A) handler t a :
  body = (t, inr a) -> try_catch body handler = (t, inr a).
Proof. intros ->. reflexivity. Qed.

Lemma ws_on_message_returns_when_dispatch_does t :
  decode_and_dispatch message = (t, inr tt) ->
  ws_on_message message = (t, inr tt).
Proof.
  intros H. unfold ws_on_message.
  apply try_catch_returns. apply try_catch_returns. exact H.
Qed.

End MessageListener.

(** C1. A message whose text decodes to an object with [type] equal to
    the string resize and numbers under [rows] and [cols] makes the listener call
    [stream.setWindow(rows, cols, cols * 7, rows * 14)] and nothing else:
    no byte is written to the shell's input. *)
Theorem resize_calls_setWindow_and_writes_nothing
  (message : RawData) (members : list (jsstring * JsValue))
  (rows cols : number) :
  JSON.parse_text (RawData_toString message) = Some (JObject members) ->
  lookup members (js "type") = Some (JString (js "resize")) ->
  lookup members (js "rows") = Some (JNumber rows) ->
  lookup members (js "cols") = Some (JNumber cols) ->
  ws_on_message message =
    ([StreamSetWindow rows cols (cols * 7) (rows * 14)], inr tt)
  /\ shell_input (trace (ws_on_message message)) = [].
Proof.
  intros Hparse Htype Hrows Hcols.
  assert (Hrun : ws_on_message message =
    ([StreamSetWindow rows cols (cols * 7) (rows * 14)], inr tt)).
  { apply ws_on_message_returns_when_dispatch_does.
    rewrite (decode_and_dispatch_object message members Hparse).
    cbv beta zeta. rewrite Htype, Hrows, Hcols. reflexivity. }
  split; [exact Hrun | rewrite Hrun; reflexivity].
Qed.

(** The scenario of the specification: a resize to 40 rows and 120
    columns gives [setWindow(40, 120, 840, 560)]. *)
Lemma resize_calls_setWindow_and_writes_nothing_witness :
  let message :=
    RBuffer (quoted_bytes "{'type':'resize','rows':40,'cols':120}") in
  ws_on_message message = ([StreamSetWindow 40 120 840 560], inr tt)
  /\ shell_input (trace (ws_on_message message)) = [].
Proof.
  apply (resize_calls_setWindow_and_writes_nothing
           (RBuffer (quoted_bytes "{'type':'resize','rows':40,'cols':120}"))
           [(js "type", JString (js "resize"));
            (js "rows", JNumber 40); (js "cols", JNumber 120)]
           40%float 120%float); reflexivity.
Defined.

(** ** How the inner [try] block can end *)

(** It throws before it has called anything, and it throws either the
    [SyntaxError] of [JSON.parse] or the [TypeError] of reading a property
    of [null]. *)
Lemma decode_and_dispatch_throws message t e :
  decode_and_dispatch message = (t, inl e) ->
  t = [] /\ instanceof_Error e = true /\
  (instanceof_SyntaxError e = true <->
   JSON.parse_text (RawData_toString message) = None).
Proof.
  destruct (JSON.parse_text (RawData_toString message)) as [data|] eqn:Hparse.
  - destruct data as [| |b|n|s|elements|members].
    7: { rewrite (decode_and_dispatch_object message members Hparse).
         cbv beta zeta. unfold emit, ret.
         destruct (strict_eq_string _ "resize");
           [ destruct (lookup members (js "rows")) as [[]|];
             try discriminate;
             destruct (lookup members (js "cols")) as [[]|]; discriminate
           | destruct (lookup members (js "data")) as [[]|]; discriminate ]. }
    all: unfold decode_and_dispatch, JSON_parse; rewrite Hparse;
      cbn [bind ret throw get_property app strict_eq_string emit];
      intros H; try discriminate H; injection H as <- <-;
      repeat split; try reflexivity; intros; discriminate.
  - unfold decode_and_dispatch, JSON_parse; rewrite Hparse.
    cbn [bind throw]. intros H. injection H as <- <-.
    repeat split; reflexivity.
Qed.

(** A failed decode takes the raw fallback: the listener writes
    [command.toString()], which is the text of the message. *)
Lemma ws_on_message_decode_failure message :
  JSON.parse_text (RawData_toString message) = None ->
  ws_on_message message = ([StreamWrite (RawData_toString message)], inr tt).
Proof.
  intros Hparse. unfold ws_on_message, decode_and_dispatch, JSON_parse.
  rewrite Hparse. destruct message; reflexivity.
Qed.

(** Any other failure goes past the fallback to the outer [catch]. *)
Lemma ws_on_message_other_failure message t e :
  decode_and_dispatch message = (t, inl e) ->
  instanceof_SyntaxError e = false ->
  ws_on_message message = ([WsSend (js "[ERROR] " ++ errorMessage e)], inr tt).
Proof.
  intros Hthrow Hclass.
  destruct (decode_and_dispatch_throws _ _ _ Hthrow) as [-> _].
  unfold ws_on_message. rewrite Hthrow.
  unfold try_catch at 2. unfold raw_fallback. rewrite Hclass.
  reflexivity.
Qed.

(** The listener itself never throws. *)
Lemma ws_on_message_returns message :
  exists t, ws_on_message message = (t, inr tt).
Proof.
  destruct (decode_and_dispatch message) as [t [e|[]]] eqn:Hrun.
  - destruct (instanceof_SyntaxError e) eqn:Hclass.
    + destruct (decode_and_dispatch_throws _ _ _ Hrun) as (_ & _ & Hiff).
      eexists. apply ws_on_message_decode_failure. apply Hiff, Hclass.
    + eexists. eapply ws_on_message_other_failure; eassumption.
  - exists t. apply ws_on_message_returns_when_dispatch_does, Hrun.
Qed.

(** C5. When handling a message fails with an error that is not the
    decode failure, the listener sends one notice with the error marker
    and the error's message, and does nothing else: nothing is written to
    the shell, nothing is closed or ended, and the session keeps its
    listeners and its heartbeat. *)
Theorem handling_error_is_reported_and_connection_kept
  (s : Session) (message : RawData) (t : list Effect) (e : Thrown) :
  phase s = ShellOpen ->
  decode_and_dispatch message = (t, inl e) ->
  instanceof_SyntaxError e = false ->
  dispatch s (WsMessage message) =
    ([WsSend (js "[ERROR] " ++ errorMessage e)], inr s)
  /\ shell_input (trace (dispatch s (WsMessage message))) = []
  /\ count is_ws_close (trace (dispatch s (WsMessage message))) = 0%nat
  /\ count is_conn_end (trace (dispatch s (WsMessage message))) = 0%nat.
Proof.
  intros Hphase Hthrow Hclass.
  assert (Hrun : dispatch s (WsMessage message) =
                 ([WsSend (js "[ERROR] " ++ errorMessage e)], inr s)).
  { unfold dispatch. rewrite Hphase.
    rewrite (ws_on_message_other_failure _ _ _ Hthrow Hclass).
    reflexivity. }
  rewrite Hrun. repeat split; reflexivity.
Qed.

(** The message [null] decodes, and reading its [type] fails. *)
Lemma handling_error_is_reported_and_connection_kept_witness :
  let s := mkSession 80 30 true ShellOpen in
  let message := RBuffer (source_bytes "null") in
  dispatch s (WsMessage message) =
    ([WsSend (js "[ERROR] Cannot read properties of null (reading 'type')")],
     inr s)
  /\ shell_input (trace (dispatch s (WsMessage message))) = []
  /\ count is_ws_close (trace (dispatch s (WsMessage message))) = 0%nat
  /\ count is_conn_end (trace (dispatch s (WsMessage message))) = 0%nat.
Proof.
  apply (handling_error_is_reported_and_connection_kept
           (mkSession 80 30 true ShellOpen)
           (RBuffer (source_bytes "null")) []
           (ThrownError (mkError TypeError
              (js "Cannot read properties of null (reading 'type')"))));
    reflexivity.
Defined.

(** ** The "connection" listener *)

(** C7. An authenticated connection whose URL carries no [vmId] (absent,
    or present and empty) is answered with the invalid-request notice and
    closed; the target table and the key store are not queried, no remote
    connection is attempted and, no listener being registered, nothing
    that happens later makes the bridge call anything. *)
Theorem missing_vmId_is_rejected_before_any_lookup
  (env : Env) (req : IncomingMessage) (auth : AuthSession)
  (events : list Event) :
  upgrade req = true ->
  getSession env (headers req) = Some auth ->
  searchParams_get (searchParams req) (js "vmId") = None \/
  searchParams_get (searchParams req) (js "vmId") = Some [] ->
  serve env req events =
    ([AuthGetSession (headers req);
      WsSend (js "[ERROR] Invalid request");
      WsClose], inr None)
  /\ count is_resolver_call (trace (serve env req events)) = 0%nat
  /\ count is_conn_connect (trace (serve env req events)) = 0%nat.
Proof.
  intros Hup Hauth Hid.
  assert (Hrun : serve env req events =
    ([AuthGetSession (headers req);
      WsSend (js "[ERROR] Invalid request"); WsClose], inr None)).
  { unfold serve, onConnection. rewrite Hup.
    cbn [bind emit ret app]. rewrite Hauth.
    destruct Hid as [-> | ->]; reflexivity. }
  rewrite Hrun. repeat split; reflexivity.
Qed.

Lemma missing_vmId_is_rejected_before_any_lookup_witness :
  let env := mkEnv (fun _ => Some (mkAuthSession (js "admin")))
                   (fun _ => None) (fun _ => None)
                   (fun _ => None) in
  let req := mkRequest (js "/wss/terminal") [(js "cols", js "100")] [] in
  serve env req [ConnReady; WsCloseEvent] =
    ([AuthGetSession []; WsSend (js "[ERROR] Invalid request"); WsClose],
     inr None)
  /\ count is_resolver_call (trace (serve env req [ConnReady; WsCloseEvent]))
     = 0%nat
  /\ count is_conn_connect (trace (serve env req [ConnReady; WsCloseEvent]))
     = 0%nat.
Proof.
  apply (missing_vmId_is_rejected_before_any_lookup
           (mkEnv (fun _ => Some (mkAuthSession (js "admin")))
                  (fun _ => None) (fun _ => None)
                  (fun _ => None))
           (mkRequest (js "/wss/terminal") [(js "cols", js "100")] [])
           (mkAuthSession (js "admin")) [ConnReady; WsCloseEvent]).
  - reflexivity.
  - reflexivity.
  - left. reflexivity.
Defined.

(** Both answers of [conn.connect]. *)
Ltac connect_cases :=
  cbn [bind emit ret app];
  match goal with
  | |- context [connect_error ?env ?config] =>
      destruct (connect_error env config)
  end.

(** What the listener does for a caller with a session, a target and
    stored parameters: its calls in order, ending with [conn.connect] on
    the configuration built from the stored parameters, and then a session
    waiting for "ready", or the error [conn.connect] throws. *)
Lemma onConnection_accepted env req auth vmId vm info :
  getSession env (headers req) = Some auth ->
  searchParams_get (searchParams req) (js "vmId") = Some vmId ->
  vmId <> [] ->
  vm_findFirst env (Number_of_string vmId) = Some vm ->
  sshInfo vm = Some info ->
  let config :=
    connect_config vm info
      match stored_key env info with
      | Some key => Some (key_privateKey key)
      | None => privateKey info
      end in
  let cols :=
    parseInt (match searchParams_get (searchParams req) (js "cols") with
              | Some v => v
              | None => js "80"
              end) in
  let rows :=
    parseInt (match searchParams_get (searchParams req) (js "rows") with
              | Some v => v
              | None => js "30"
              end) in
  onConnection env req =
    ([AuthGetSession (headers req); DbFindVm (Number_of_string vmId)]
       ++ key_lookup info
       ++ [SetInterval 30000; WsSend connecting_notice; ConnConnect config],
     match connect_error env config with
     | Some err => inl (ThrownError err)
     | None => inr (Some (mkSession cols rows true Connecting))
     end).
Proof.
  intros Hauth Hid Hne Hvm Hinfo. cbv zeta.
  unfold onConnection, key_lookup, stored_key.
  cbn [bind emit ret app]. rewrite Hauth, Hid.
  destruct vmId as [|u vmId]; [contradiction|].
  cbn [bind emit ret app]. rewrite Hvm. cbn [bind emit ret app].
  rewrite Hinfo.
  destruct (sshKeyId info) as [id|]; [destruct (JsNumber.truthy id)|];
    cbn [bind emit ret app];
    match goal with
    | |- context [connect_error env ?c] => destruct (connect_error env c)
    end; reflexivity.
Qed.

(** It calls [conn.connect] exactly once. *)
Lemma onConnection_accepted_connects env req auth vmId vm info :
  getSession env (headers req) = Some auth ->
  searchParams_get (searchParams req) (js "vmId") = Some vmId ->
  vmId <> [] ->
  vm_findFirst env (Number_of_string vmId) = Some vm ->
  sshInfo vm = Some info ->
  filter is_conn_connect (trace (onConnection env req)) =
    [ConnConnect
       (connect_config vm info
          match stored_key env info with
          | Some key => Some (key_privateKey key)
          | None => privateKey info
          end)].
Proof.
  intros Hauth Hid Hne Hvm Hinfo.
  rewrite (onConnection_accepted env req auth vmId vm info
             Hauth Hid Hne Hvm Hinfo).
  unfold key_lookup.
  destruct (sshKeyId info) as [id|]; [destruct (JsNumber.truthy id)|];
    reflexivity.
Qed.

(** C9. For a caller with a session, a target and stored parameters,
    [conn.connect] is called once, with a connect timeout and a ready
    timeout of 3000 ms and a keep-alive interval of 10000 ms. Where the
    stored parameters omit the port the configuration has port 22, where
    they omit the user name it has the user root, and where they omit the
    host it has the target's stored address (no host at all when the
    target has no address or an empty one). A stored port, user name or
    host is passed on as it is, unless it is falsy (port 0 or NaN, the
    empty string), when the same fallback applies. *)
Theorem connect_config_fallbacks_and_timeouts
  (env : Env) (req : IncomingMessage) (auth : AuthSession)
  (vmId : jsstring) (vm : Vm) (info : SshInfo) :
  getSession env (headers req) = Some auth ->
  searchParams_get (searchParams req) (js "vmId") = Some vmId ->
  vmId <> [] ->
  vm_findFirst env (Number_of_string vmId) = Some vm ->
  sshInfo vm = Some info ->
  exists config,
    filter is_conn_connect (trace (onConnection env req))
      = [ConnConnect config]
    /\ cfg_timeout config = 3000%float
    /\ cfg_readyTimeout config = 3000%float
    /\ cfg_keepaliveInterval config = 10000%float
    /\ (port info = None -> cfg_port config = 22%float)
    /\ (username info = None -> cfg_username config = js "root")
    /\ (host info = None ->
        cfg_host config =
          if truthy_string (ipAddress vm) then ipAddress vm else None)
    /\ (forall p, port info = Some p ->
        cfg_port config = if JsNumber.truthy p then p else 22%float)
    /\ (forall u, username info = Some u ->
        cfg_username config = match u with [] => js "root" | _ => u end)
    /\ (forall h, host info = Some h ->
        cfg_host config =
          match h with
          | [] => if truthy_string (ipAddress vm) then ipAddress vm else None
          | _ => Some h
          end).
Proof.
  intros Hauth Hid Hne Hvm Hinfo.
  eexists. split.
  { apply (onConnection_accepted_connects env req auth vmId vm info);
      assumption. }
  unfold connect_config.
  cbn [cfg_timeout cfg_readyTimeout cfg_keepaliveInterval cfg_port
       cfg_username cfg_host].
  repeat split.
  - intros ->. reflexivity.
  - intros ->. reflexivity.
  - intros ->. reflexivity.
  - intros p ->. reflexivity.
  - intros u ->. destruct u; reflexivity.
  - intros h ->. destruct h; reflexivity.
Qed.

Lemma connect_config_fallbacks_and_timeouts_witness :
  let info := mkSshInfo None None (Some (js "ubuntu")) (Some (js "inline"))
                        None in
  let vm := mkVm (Some (js "10.0.0.7")) (Some info) in
  let env := mkEnv (fun _ => Some (mkAuthSession (js "admin")))
                   (fun _ => Some vm) (fun _ => None) (fun _ => None) in
  let req := mkRequest (js "/wss/terminal") [(js "vmId", js "7")] [] in
  exists config,
    filter is_conn_connect (trace (onConnection env req))
      = [ConnConnect config]
    /\ cfg_timeout config = 3000%float
    /\ cfg_readyTimeout config = 3000%float
    /\ cfg_keepaliveInterval config = 10000%float
    /\ (port info = None -> cfg_port config = 22%float)
    /\ (username info = None -> cfg_username config = js "root")
    /\ (host info = None ->
        cfg_host config =
          if truthy_string (ipAddress vm) then ipAddress vm else None)
    /\ (forall p, port info = Some p ->
        cfg_port config = if JsNumber.truthy p then p else 22%float)
    /\ (forall u, username info = Some u ->
        cfg_username config = match u with [] => js "root" | _ => u end)
    /\ (forall h, host info = Some h ->
        cfg_host config =
          match h with
          | [] => if truthy_string (ipAddress vm) then ipAddress vm else None
          | _ => Some h
          end).
Proof.
  intros info vm env req.
  apply (connect_config_fallbacks_and_timeouts env req
           (mkAuthSession (js "admin")) (js "7") vm info);
    try reflexivity.
  discriminate.
Defined.

(** C10. For a caller with a session, a target and stored parameters,
    [conn.connect] is called once, and the private key it is given is:
    when the stored parameters refer to a stored key and the key store
    returns one, the stored key's material; when they refer to none (no
    identifier, or the falsy identifier 0), or the key store returns
    nothing, the inline material of the stored parameters. *)
Theorem private_key_prefers_stored_key
  (env : Env) (req : IncomingMessage) (auth : AuthSession)
  (vmId : jsstring) (vm : Vm) (info : SshInfo) :
  getSession env (headers req) = Some auth ->
  searchParams_get (searchParams req) (js "vmId") = Some vmId ->
  vmId <> [] ->
  vm_findFirst env (Number_of_string vmId) = Some vm ->
  sshInfo vm = Some info ->
  exists config,
    filter is_conn_connect (trace (onConnection env req))
      = [ConnConnect config]
    /\ (forall id key,
          sshKeyId info = Some id -> JsNumber.truthy id = true ->
          sshKeysTable_findFirst env id = Some key ->
          cfg_privateKey config = Some (key_privateKey key))
    /\ (forall id,
          sshKeyId info = Some id -> JsNumber.truthy id = true ->
          sshKeysTable_findFirst env id = None ->
          cfg_privateKey config = privateKey info)
    /\ (forall id,
          sshKeyId info = Some id -> JsNumber.truthy id = false ->
          cfg_privateKey config = privateKey info)
    /\ (sshKeyId info = None -> cfg_privateKey config = privateKey info).
Proof.
  intros Hauth Hid Hne Hvm Hinfo.
  eexists. split.
  { apply (onConnection_accepted_connects env req auth vmId vm info);
      assumption. }
  unfold connect_config, stored_key. cbn [cfg_privateKey].
  repeat split.
  - intros id key -> -> ->. reflexivity.
  - intros id -> -> ->. reflexivity.
  - intros id -> ->. reflexivity.
  - intros ->. reflexivity.
Qed.

Lemma private_key_prefers_stored_key_witness :
  let info := mkSshInfo None None (Some (js "ubuntu")) (Some (js "inline"))
                        (Some 3%float) in
  let vm := mkVm (Some (js "10.0.0.7")) (Some info) in
  let env := mkEnv (fun _ => Some (mkAuthSession (js "admin")))
                   (fun _ => Some vm)
                   (fun _ => Some (mkSshKey (js "stored")))
                   (fun _ => None) in
  let req := mkRequest (js "/wss/terminal") [(js "vmId", js "7")] [] in
  exists config,
    filter is_conn_connect (trace (onConnection env req))
      = [ConnConnect config]
    /\ (forall id key,
          sshKeyId info = Some id -> JsNumber.truthy id = true ->
          sshKeysTable_findFirst env id = Some key ->
          cfg_privateKey config = Some (key_privateKey key))
    /\ (forall id,
          sshKeyId info = Some id -> JsNumber.truthy id = true ->
          sshKeysTable_findFirst env id = None ->
          cfg_privateKey config = privateKey info)
    /\ (forall id,
          sshKeyId info = Some id -> JsNumber.truthy id = false ->
          cfg_privateKey config = privateKey info)
    /\ (sshKeyId info = None -> cfg_privateKey config = privateKey info).
Proof.
  intros info vm env req.
  apply (private_key_prefers_stored_key env req
           (mkAuthSession (js "admin")) (js "7") vm info);
    try reflexivity.
  discriminate.
Defined.

(** ** Events and teardown *)

Lemma bind_assoc {A B C} (m : M A) (f : A -> M B) (g : B -> M C) :
  bind (bind m f) g = bind m (fun a => bind (f a) g).
Proof.
  destruct m as [t [e|a]]; cbn; [reflexivity|].
  destruct (f a) as [t' [e'|b]]; cbn; [reflexivity|].
  destruct (g b) as [t'' r]. rewrite app_assoc. reflexivity.
Qed.

Lemma bind_ret_l {A B} (a : A) (f : A -> M B) : bind (ret a) f = f a.
Proof. unfold bind, ret. destruct (f a). reflexivity. Qed.

Lemma bind_ext {A B} (m : M A) (f g : A -> M B) :
  (forall a, f a = g a) -> bind m f = bind m g.
Proof.
  intros H. destruct m as [t [e|a]]; cbn; [reflexivity|].
  rewrite H. reflexivity.
Qed.

Lemma run_app s pre post :
  run s (pre ++ post) = bind (run s pre) (fun s' => run s' post).
Proof.
  revert s. induction pre as [|ev pre IH]; intros s; cbn [run app].
  - rewrite bind_ret_l. reflexivity.
  - rewrite bind_assoc. apply bind_ext. intros s'. apply IH.
Qed.

(** A message that arrives while the shell is not open finds no
    listener. *)
Lemma message_without_listener s message :
  phase s <> ShellOpen -> dispatch s (WsMessage message) = ret s.
Proof.
  intros H. unfold dispatch. destruct (phase s); try reflexivity.
  contradiction.
Qed.

(** C8. A message that arrives before the shell is open is dropped: the
    bridge calls nothing for it (no write, no notice), the session is
    unchanged, and whatever happens afterwards happens exactly as if the
    message had never arrived, so it is not kept for later either. *)
Theorem early_message_is_discarded
  (s s' : Session) (pre post : list Event) (t : list Effect)
  (message : RawData) :
  run s pre = (t, inr s') ->
  phase s' <> ShellOpen ->
  dispatch s' (WsMessage message) = ([], inr s')
  /\ run s (pre ++ WsMessage message :: post) = run s (pre ++ post).
Proof.
  intros Hpre Hphase. split.
  - apply message_without_listener, Hphase.
  - rewrite !run_app, Hpre. cbn [bind run].
    rewrite (message_without_listener s' message Hphase).
    rewrite bind_ret_l. reflexivity.
Qed.

Lemma early_message_is_discarded_witness :
  let s := mkSession 80 30 true Connecting in
  let s' := mkSession 80 30 true ShellRequested in
  let message := RBuffer (source_bytes "ls") in
  dispatch s' (WsMessage message) = ([], inr s')
  /\ run s ([ConnReady] ++ WsMessage message :: [ShellResult None])
     = run s ([ConnReady] ++ [ShellResult None]).
Proof.
  intros s s' message.
  apply (early_message_is_discarded s s' [ConnReady] [ShellResult None]
           [ConnShell (mkPty (js "xterm-256color") 80 30 560 420)] message).
  - reflexivity.
  - discriminate.
Defined.

(** C6. An error event on the open shell stream is logged and reported
    to the peer with one notice, and that is all: the session is as it
    was. Of the events that come from the stream, only its close event
    makes the bridge close the transport or end the remote connection,
    and the close event does both. *)
Theorem stream_error_is_reported_without_teardown
  (s : Session) (err : JsError) :
  phase s = ShellOpen ->
  dispatch s (StreamError err) =
    ([ConsoleError [js "Stream error:"; err_message err];
      WsSend (js "[ERROR] Stream error: " ++ err_message err)], inr s)
  /\ (forall ev,
        from_stream ev = true ->
        In WsClose (trace (dispatch s ev)) \/
        In ConnEnd (trace (dispatch s ev)) \/
        In StreamEnd (trace (dispatch s ev)) ->
        exists code, ev = StreamClose code)
  /\ (forall code,
        In WsClose (trace (dispatch s (StreamClose code)))
        /\ In ConnEnd (trace (dispatch s (StreamClose code)))).
Proof.
  intros Hphase. split; [|split].
  - unfold dispatch. rewrite Hphase. reflexivity.
  - intros ev Hfrom Hin. destruct ev; try discriminate Hfrom.
    + eexists. reflexivity.
    + exfalso. unfold dispatch in Hin. rewrite Hphase in Hin. cbn in Hin.
      intuition discriminate.
    + exfalso. unfold dispatch in Hin. rewrite Hphase in Hin. cbn in Hin.
      intuition discriminate.
    + exfalso. unfold dispatch in Hin. rewrite Hphase in Hin. cbn in Hin.
      intuition discriminate.
  - intros code. unfold dispatch. rewrite Hphase. cbn.
    split; [do 3 right; left | do 2 right; left]; reflexivity.
Qed.

Lemma stream_error_is_reported_without_teardown_witness :
  let s := mkSession 80 30 true ShellOpen in
  let err := mkError PlainError (js "read ECONNRESET") in
  dispatch s (StreamError err) =
    ([ConsoleError [js "Stream error:"; js "read ECONNRESET"];
      WsSend (js "[ERROR] Stream error: read ECONNRESET")], inr s)
  /\ (forall ev,
        from_stream ev = true ->
        In WsClose (trace (dispatch s ev)) \/
        In ConnEnd (trace (dispatch s ev)) \/
        In StreamEnd (trace (dispatch s ev)) ->
        exists code, ev = StreamClose code)
  /\ (forall code,
        In WsClose (trace (dispatch s (StreamClose code)))
        /\ In ConnEnd (trace (dispatch s (StreamClose code)))).
Proof.
  apply (stream_error_is_reported_without_teardown
           (mkSession 80 30 true ShellOpen)
           (mkError PlainError (js "read ECONNRESET"))).
  reflexivity.
Defined.

(** What the "message" listener can call: it resizes, writes to the
    shell or sends a notice, once, or does nothing. *)
Lemma ws_on_message_calls message :
  ws_on_message message = ([], inr tt)
  \/ (exists rows cols height width,
        ws_on_message message =
          ([StreamSetWindow rows cols height width], inr tt))
  \/ (exists chunk, ws_on_message message = ([StreamWrite chunk], inr tt))
  \/ (exists notice, ws_on_message message = ([WsSend notice], inr tt)).
Proof.
  destruct (JSON.parse_text (RawData_toString message)) as [data|] eqn:Hp.
  2: { right; right; left. eexists.
       apply ws_on_message_decode_failure, Hp. }
  assert (Hscalar : forall v,
    JSON.parse_text (RawData_toString message) = Some v ->
    get_property v "type" = ret JUndefined ->
    get_property v "data" = ret JUndefined ->
    ws_on_message message
    = ([StreamWrite (RawData_toString message)], inr tt)).
  { intros v Hv Htype Hdata.
    apply ws_on_message_returns_when_dispatch_does.
    unfold decode_and_dispatch, JSON_parse. rewrite Hv.
    cbn [bind ret app]. rewrite Htype. cbn [bind ret app strict_eq_string].
    rewrite Hdata. reflexivity. }
  assert (Hnullish : forall v e,
    JSON.parse_text (RawData_toString message) = Some v ->
    get_property v "type" = throw (ThrownError (mkError TypeError e)) ->
    exists notice, ws_on_message message = ([WsSend notice], inr tt)).
  { intros v e Hv Htype. eexists.
    apply (ws_on_message_other_failure message []
             (ThrownError (mkError TypeError e))); [|reflexivity].
    unfold decode_and_dispatch, JSON_parse. rewrite Hv.
    cbn [bind ret app]. rewrite Htype. reflexivity. }
  destruct data as [| |b|n|str|elements|members].
  1, 2: right; right; right; eapply Hnullish; [exact Hp | reflexivity].
  1, 2, 3, 4: right; right; left; eexists;
    apply (Hscalar _ Hp); reflexivity.
  assert (Hrun := decode_and_dispatch_object message members Hp).
  cbv beta zeta in Hrun. unfold emit, ret in Hrun.
  destruct (strict_eq_string _ "resize").
  - destruct (lookup members (js "rows")) as [[]|];
      try (left; apply ws_on_message_returns_when_dispatch_does, Hrun).
    destruct (lookup members (js "cols")) as [[]|];
      try (left; apply ws_on_message_returns_when_dispatch_does, Hrun).
    right; left. do 4 eexists.
    apply ws_on_message_returns_when_dispatch_does, Hrun.
  - right; right; left.
    destruct (lookup members (js "data")) as [[]|]; eexists;
      apply ws_on_message_returns_when_dispatch_does, Hrun.
Qed.

(** Every listener returns: an event never leaves the session without a
    state. *)
Lemma dispatch_returns s ev : exists t s', dispatch s ev = (t, inr s').
Proof.
  destruct ev; unfold dispatch;
    try (destruct (phase s); do 2 eexists; reflexivity).
  - destruct (pingInterval s); [destruct readyState|];
      do 2 eexists; reflexivity.
  - unfold conn_on_error.
    destruct (is_client_authentication (ssh_level err));
      do 2 eexists; reflexivity.
  - destruct (phase s); try (do 2 eexists; reflexivity).
    destruct err; do 2 eexists; reflexivity.
  - destruct (phase s); try (do 2 eexists; reflexivity).
    destruct (ws_on_message_returns message) as [t ->].
    do 2 eexists; reflexivity.
Qed.

Lemma run_returns s events : exists t s', run s events = (t, inr s').
Proof.
  revert s. induction events as [|ev events IH]; intros s; cbn [run].
  - do 2 eexists; reflexivity.
  - destruct (dispatch_returns s ev) as (t & s1 & ->).
    destruct (IH s1) as (t' & s' & Hrest).
    cbn [bind]. rewrite Hrest. do 2 eexists; reflexivity.
Qed.

(** With the shell open, one event makes at most one call of each kind of
    teardown, and the listeners stay registered. *)
Lemma dispatch_open_teardown_calls s ev :
  phase s = ShellOpen ->
  exists t s',
    dispatch s ev = (t, inr s') /\ phase s' = ShellOpen
    /\ count is_conn_end t = (if ends_remote ev then 1 else 0)%nat
    /\ count is_ws_close t = (if closes_transport ev then 1 else 0)%nat.
Proof.
  intros Hphase. destruct ev; unfold dispatch; rewrite ?Hphase.
  - destruct (pingInterval s); [destruct readyState|];
      do 2 eexists; repeat split; assumption.
  - do 2 eexists; repeat split; assumption.
  - unfold conn_on_error.
    destruct (is_client_authentication (ssh_level err));
      do 2 eexists; repeat split; assumption.
  - do 2 eexists; repeat split; assumption.
  - do 2 eexists; repeat split; assumption.
  - do 2 eexists; repeat split; assumption.
  - do 2 eexists; repeat split; assumption.
  - do 2 eexists; repeat split; assumption.
  - destruct (ws_on_message_calls message)
      as [-> | [(r & c & h & w & ->) | [(chunk & ->) | (notice & ->)]]];
      do 2 eexists; repeat split; assumption.
  - do 2 eexists; repeat split; assumption.
Qed.

Lemma count_app p t t' : count p (t ++ t') = (count p t + count p t')%nat.
Proof. unfold count. rewrite filter_app, length_app. reflexivity. Qed.

(** No listener is guarded: over any sequence of events with the shell
    open, the remote connection is ended once for every close of the
    stream, close of the transport and connection error, and the
    transport is closed once for every close of the stream and connection
    error. *)
Lemma teardown_calls_follow_events s events :
  phase s = ShellOpen ->
  count is_conn_end (trace (run s events))
    = List.length (filter ends_remote events)
  /\ count is_ws_close (trace (run s events))
    = List.length (filter closes_transport events).
Proof.
  revert s. induction events as [|ev events IH]; intros s Hphase.
  - split; reflexivity.
  - destruct (dispatch_open_teardown_calls s ev Hphase)
      as (t & s1 & Hrun & Hphase1 & Hend & Hclose).
    destruct (IH s1 Hphase1) as [IHend IHclose].
    destruct (run_returns s1 events) as (t' & s' & Hrest).
    cbn [run filter]. rewrite Hrun. cbn [bind]. rewrite Hrest.
    rewrite Hrest in IHend, IHclose. cbn [trace fst] in *.
    rewrite !count_app, Hend, Hclose, IHend, IHclose.
    destruct (ends_remote ev), (closes_transport ev); split; reflexivity.
Qed.

(** C3, as the specification states it, fails: when the stream's close
    event is followed by the transport's close event, the remote
    connection is ended twice. *)
Lemma teardown_ends_remote_connection_twice :
  let s := mkSession 80 30 true ShellOpen in
  let t := trace (run s [StreamClose 0; WsCloseEvent]) in
  count is_ws_close t = 1%nat /\ count is_conn_end t = 2%nat
  /\ ~ (count is_ws_close t = 1%nat /\ count is_conn_end t = 1%nat).
Proof.
  cbn. repeat split. intros [_ H]. discriminate H.
Qed.

Lemma teardown_events_split events :
  List.length (filter ends_remote events)
    = (occurrences is_stream_close events
       + occurrences is_transport_close events
       + occurrences is_conn_error events)%nat
  /\ List.length (filter closes_transport events)
    = (occurrences is_stream_close events
       + occurrences is_conn_error events)%nat.
Proof.
  unfold occurrences.
  induction events as [|ev events [IHend IHclose]]; [split; reflexivity|].
  destruct ev; cbn [filter ends_remote closes_transport is_stream_close
                    is_transport_close is_conn_error List.length];
    rewrite ?IHend, ?IHclose; split; lia.
Qed.

(** C3, amended. In a session with the shell open, when the stream's
    close event and the transport's close event both fire, once each, in
    either order and with any other events around them (no connection
    error), the transport connection is closed exactly once, by the
    stream's listener, and the end of the remote connection is requested
    twice, once by each listener: neither listener checks whether the
    other has run. *)
Theorem teardown_twice_closes_once_and_ends_twice
  (s : Session) (events : list Event) :
  phase s = ShellOpen ->
  occurrences is_stream_close events = 1%nat ->
  occurrences is_transport_close events = 1%nat ->
  occurrences is_conn_error events = 0%nat ->
  count is_ws_close (trace (run s events)) = 1%nat
  /\ count is_conn_end (trace (run s events)) = 2%nat.
Proof.
  intros Hphase Hstream Htransport Herror.
  destruct (teardown_calls_follow_events s events Hphase) as [Hend Hclose].
  destruct (teardown_events_split events) as [Hends Hcloses].
  rewrite Hend, Hclose, Hends, Hcloses, Hstream, Htransport, Herror.
  split; reflexivity.
Qed.

Lemma teardown_twice_closes_once_and_ends_twice_witness :
  let s := mkSession 80 30 true ShellOpen in
  let events :=
    [StreamData (js "bye"); StreamClose 0; Tick CLOSING; WsCloseEvent] in
  count is_ws_close (trace (run s events)) = 1%nat
  /\ count is_conn_end (trace (run s events)) = 2%nat.
Proof.
  apply (teardown_twice_closes_once_and_ends_twice
           (mkSession 80 30 true ShellOpen)
           [StreamData (js "bye"); StreamClose 0; Tick CLOSING; WsCloseEvent]);
    reflexivity.
Defined.

(** ** The initial geometry *)

(** The geometry an accepted connection keeps is [parseInt] of each
    parameter, with the text 80 or 30 standing in for an absent one. *)
Lemma accepted_geometry env req t s :
  onConnection env req = (t, inr (Some s)) ->
  cols s = parseInt (match searchParams_get (searchParams req) (js "cols") with
                     | Some v => v
                     | None => js "80"
                     end)
  /\ rows s = parseInt (match searchParams_get (searchParams req) (js "rows")
                        with
                        | Some v => v
                        | None => js "30"
                        end)
  /\ pingInterval s = true /\ phase s = Connecting.
Proof.
  unfold onConnection. cbn [bind emit ret app].
  destruct (getSession env (headers req)); [|discriminate].
  destruct (searchParams_get (searchParams req) (js "vmId")) as [[|u vmId]|];
    try discriminate.
  cbn [bind emit ret app].
  destruct (vm_findFirst env (Number_of_string (u :: vmId))) as [vm|];
    [|discriminate].
  destruct (sshInfo vm) as [info|]; [|discriminate].
  destruct (sshKeyId info) as [id|]; [destruct (JsNumber.truthy id)|];
    connect_cases; cbn; intros H; try discriminate H;
    injection H as _ <-; repeat split.
Qed.

(** With both parameters absent the shell is asked for 80 columns and 30
    rows. *)
Lemma absent_geometry_is_80_by_30 env req t s :
  onConnection env req = (t, inr (Some s)) ->
  searchParams_get (searchParams req) (js "cols") = None ->
  searchParams_get (searchParams req) (js "rows") = None ->
  dispatch s ConnReady =
    ([ConnShell (mkPty (js "xterm-256color") 80 30 560 420)],
     inr (with_phase s ShellRequested)).
Proof.
  intros Hrun Hcols Hrows.
  destruct (accepted_geometry _ _ _ _ Hrun) as (Hc & Hr & _ & Hphase).
  rewrite Hcols in Hc. rewrite Hrows in Hr.
  unfold dispatch, conn_once_ready. rewrite Hphase, Hc, Hr. reflexivity.
Qed.

(** C4 fails for a parameter that is present and not numeric: with
    [cols=abc] the shell is requested with NaN columns (and a NaN pixel
    width), not with 80. Only an absent parameter gets the default. *)
Theorem non_numeric_cols_opens_shell_with_NaN :
  let vm := mkVm (Some (js "10.0.0.7"))
                 (Some (mkSshInfo None None None (Some (js "inline")) None)) in
  let env := mkEnv (fun _ => Some (mkAuthSession (js "admin")))
                   (fun _ => Some vm) (fun _ => None)
                   (fun _ => None) in
  let req := mkRequest (js "/wss/terminal")
                       [(js "vmId", js "1"); (js "cols", js "abc")] [] in
  parseInt (js "abc") = nan
  /\ In (ConnShell (mkPty (js "xterm-256color") nan 30 nan 420))
        (trace (serve env req [ConnReady]))
  /\ ~ In (ConnShell (mkPty (js "xterm-256color") 80 30 560 420))
          (trace (serve env req [ConnReady])).
Proof.
  cbn zeta. split; [reflexivity|]. split.
  - vm_compute. do 5 right. left. reflexivity.
  - vm_compute. intros H.
    repeat (destruct H as [H|H]; [discriminate H|]). exact H.
Qed.

(** ** The raw fallback *)

(** C2, as the specification states it, fails: the single byte FF is not
    JSON, and what reaches the shell is not that byte but the three bytes
    of U+FFFD, because the listener decodes the message as UTF-8 text and
    the stream encodes the text again. *)
Lemma raw_fallback_rewrites_ill_formed_bytes :
  let message := RBuffer [0xFF] in
  JSON.parse_text (RawData_toString message) = None
  /\ shell_input (trace (ws_on_message message)) = [0xEF; 0xBF; 0xBD]
  /\ shell_input (trace (ws_on_message message)) <> [0xFF].
Proof.
  cbn zeta. split; [reflexivity|]. split; [reflexivity|].
  vm_compute. discriminate.
Qed.

(** C2, amended. A message delivered as a [Buffer] of well-formed UTF-8
    whose text [JSON.parse] rejects is written to the shell's input byte
    for byte, and that write is all the listener does. The raw fallback
    is taken only for the [SyntaxError] of a failed decode: the inner
    block throws it exactly when decoding fails, and when it throws
    anything else nothing is written to the shell. *)
Theorem raw_fallback_writes_well_formed_bytes_unmodified (bytes : list Z) :
  Utf8.well_formed bytes = true ->
  JSON.parse_text (Utf8.decode bytes) = None ->
  ws_on_message (RBuffer bytes) = ([StreamWrite (Utf8.decode bytes)], inr tt)
  /\ shell_input (trace (ws_on_message (RBuffer bytes))) = bytes
  /\ (forall message t e,
        decode_and_dispatch message = (t, inl e) ->
        (instanceof_SyntaxError e = true <->
         JSON.parse_text (RawData_toString message) = None)
        /\ (instanceof_SyntaxError e = false ->
            count is_stream_write (trace (ws_on_message message)) = 0%nat
            /\ shell_input (trace (ws_on_message message)) = [])).
Proof.
  intros Hwf Hparse.
  pose proof (ws_on_message_decode_failure (RBuffer bytes) Hparse) as Hrun.
  cbn [RawData_toString] in Hrun.
  split; [exact Hrun|]. split.
  - rewrite Hrun. cbn [trace fst shell_input].
    rewrite app_nil_r. apply Utf8Facts.encode_decode, Hwf.
  - intros message t e Hthrow. split.
    + apply (decode_and_dispatch_throws _ _ _ Hthrow).
    + intros Hclass.
      rewrite (ws_on_message_other_failure _ _ _ Hthrow Hclass).
      split; reflexivity.
Qed.

Lemma raw_fallback_writes_well_formed_bytes_unmodified_witness :
  let bytes := source_bytes "ls -la" ++ [13] in
  ws_on_message (RBuffer bytes) = ([StreamWrite (Utf8.decode bytes)], inr tt)
  /\ shell_input (trace (ws_on_message (RBuffer bytes))) = bytes
  /\ (forall message t e,
        decode_and_dispatch message = (t, inl e) ->
        (instanceof_SyntaxError e = true <->
         JSON.parse_text (RawData_toString message) = None)
        /\ (instanceof_SyntaxError e = false ->
            count is_stream_write (trace (ws_on_message message)) = 0%nat
            /\ shell_input (trace (ws_on_message message)) = [])).
Proof.
  apply (raw_fallback_writes_well_formed_bytes_unmodified
           (source_bytes "ls -la" ++ [13])); reflexivity.
Defined.
(* ================================================================= *)
(** * Further properties *)

(** ** Strings *)

Lemma jsstring_eqb_eq s t : JsString.eqb s t = true <-> s = t.
Proof.
  revert t. induction s as [|a s IH]; intros [|b t]; cbn [JsString.eqb];
    try (split; [discriminate | discriminate]); [tauto|].
  rewrite andb_true_iff, Z.eqb_eq, IH.
  split; [intros [-> ->]; reflexivity | intros H; injection H; auto].
Qed.

Lemma jsstring_eqb_neq s t : JsString.eqb s t = false <-> s <> t.
Proof.
  rewrite <- jsstring_eqb_eq. destruct (JsString.eqb s t); split;
    congruence.
Qed.

(** ** Traces *)

Lemma sent_frames_app t t' :
  sent_frames (t ++ t') = sent_frames t ++ sent_frames t'.
Proof.
  induction t as [|e t IH]; [reflexivity|].
  destruct e; cbn [app sent_frames]; rewrite ?IH; reflexivity.
Qed.

Lemma shell_input_app t t' :
  shell_input (t ++ t') = shell_input t ++ shell_input t'.
Proof.
  induction t as [|e t IH]; [reflexivity|].
  destruct e; cbn [app shell_input]; rewrite ?IH, ?app_assoc; reflexivity.
Qed.

(** ** Routing and rejection *)

(** X20. Only requests for the terminal path reach the bridge: for any
    other path nothing is called, not even the session check. *)
Theorem other_paths_are_not_served
  (env : Env) (req : IncomingMessage) (events : list Event) :
  pathname req <> js "/wss/terminal" ->
  serve env req events = ([], inr None).
Proof.
  intros Hpath. unfold serve, upgrade.
  destruct (JsString.eqb (pathname req) (js "/_next/webpack-hmr"));
    [reflexivity|].
  rewrite (proj2 (jsstring_eqb_neq _ _) Hpath). reflexivity.
Qed.

Lemma other_paths_are_not_served_witness :
  serve (mkEnv (fun _ => Some (mkAuthSession (js "admin")))
               (fun _ => None) (fun _ => None)
               (fun _ => None))
        (mkRequest (js "/wss/terminal/") [(js "vmId", js "1")] [])
        [ConnReady]
  = ([], inr None).
Proof.
  apply other_paths_are_not_served. discriminate.
Defined.

(** X1. A caller without a session gets the unauthorized notice and the
    connection is closed, whatever the URL asks for: no table is queried,
    no timer is set, no connection is attempted, and no later event makes
    the bridge call anything. *)
Theorem unauthorized_is_rejected_before_any_lookup
  (env : Env) (req : IncomingMessage) (events : list Event) :
  upgrade req = true ->
  getSession env (headers req) = None ->
  serve env req events =
    ([AuthGetSession (headers req);
      WsSend (js "[ERROR] Unauthorized");
      WsClose], inr None).
Proof.
  intros Hup Hauth. unfold serve, onConnection. rewrite Hup.
  cbn [bind emit ret app]. rewrite Hauth. reflexivity.
Qed.

Lemma unauthorized_is_rejected_before_any_lookup_witness :
  let env := mkEnv (fun _ => None)
                   (fun _ => Some (mkVm None None)) (fun _ => None)
                   (fun _ => None) in
  let req := mkRequest (js "/wss/terminal") [(js "vmId", js "1")] [] in
  serve env req [ConnReady; WsCloseEvent] =
    ([AuthGetSession []; WsSend (js "[ERROR] Unauthorized"); WsClose],
     inr None).
Proof.
  apply (unauthorized_is_rejected_before_any_lookup
           (mkEnv (fun _ => None)
                  (fun _ => Some (mkVm None None)) (fun _ => None)
                  (fun _ => None))
           (mkRequest (js "/wss/terminal") [(js "vmId", js "1")] [])
           [ConnReady; WsCloseEvent]); reflexivity.
Defined.

(** X2. When the target table has no row for [Number(vmId)], the caller
    gets the not-found notice and the connection is closed: the key store
    is not queried, no timer is set and no connection is attempted. *)
Theorem unknown_target_is_rejected
  (env : Env) (req : IncomingMessage) (auth : AuthSession)
  (vmId : jsstring) (events : list Event) :
  upgrade req = true ->
  getSession env (headers req) = Some auth ->
  searchParams_get (searchParams req) (js "vmId") = Some vmId ->
  vmId <> [] ->
  vm_findFirst env (Number_of_string vmId) = None ->
  serve env req events =
    ([AuthGetSession (headers req);
      DbFindVm (Number_of_string vmId);
      WsSend (js "[ERROR] Server not found");
      WsClose], inr None).
Proof.
  intros Hup Hauth Hid Hne Hvm. unfold serve, onConnection. rewrite Hup.
  cbn [bind emit ret app]. rewrite Hauth, Hid.
  destruct vmId as [|u vmId]; [contradiction|].
  cbn [bind emit ret app]. rewrite Hvm. reflexivity.
Qed.

Lemma unknown_target_is_rejected_witness :
  let env := mkEnv (fun _ => Some (mkAuthSession (js "admin")))
                   (fun _ => None) (fun _ => None)
                   (fun _ => None) in
  let req := mkRequest (js "/wss/terminal") [(js "vmId", js "12")] [] in
  serve env req [ConnReady] =
    ([AuthGetSession []; DbFindVm 12;
      WsSend (js "[ERROR] Server not found"); WsClose], inr None).
Proof.
  apply (unknown_target_is_rejected
           (mkEnv (fun _ => Some (mkAuthSession (js "admin")))
                  (fun _ => None) (fun _ => None)
                  (fun _ => None))
           (mkRequest (js "/wss/terminal") [(js "vmId", js "12")] [])
           (mkAuthSession (js "admin")) (js "12") [ConnReady]);
    try reflexivity.
  discriminate.
Defined.

(** X3. When the target exists but stores no connection parameters, the
    caller gets the no-credential notice and the connection is closed:
    the key store is not queried, no timer is set and no connection is
    attempted. *)
Theorem target_without_credentials_is_rejected
  (env : Env) (req : IncomingMessage) (auth : AuthSession)
  (vmId : jsstring) (vm : Vm) (events : list Event) :
  upgrade req = true ->
  getSession env (headers req) = Some auth ->
  searchParams_get (searchParams req) (js "vmId") = Some vmId ->
  vmId <> [] ->
  vm_findFirst env (Number_of_string vmId) = Some vm ->
  sshInfo vm = None ->
  serve env req events =
    ([AuthGetSession (headers req);
      DbFindVm (Number_of_string vmId);
      WsSend (js "[ERROR] No SSH key or password available for this server");
      WsClose], inr None).
Proof.
  intros Hup Hauth Hid Hne Hvm Hinfo. unfold serve, onConnection.
  rewrite Hup. cbn [bind emit ret app]. rewrite Hauth, Hid.
  destruct vmId as [|u vmId]; [contradiction|].
  cbn [bind emit ret app]. rewrite Hvm. cbn [bind emit ret app].
  rewrite Hinfo. reflexivity.
Qed.

Lemma target_without_credentials_is_rejected_witness :
  let env := mkEnv (fun _ => Some (mkAuthSession (js "admin")))
                   (fun _ => Some (mkVm (Some (js "10.0.0.7")) None))
                   (fun _ => Some (mkSshKey (js "stored")))
                   (fun _ => None) in
  let req := mkRequest (js "/wss/terminal") [(js "vmId", js "12")] [] in
  serve env req [ConnReady] =
    ([AuthGetSession []; DbFindVm 12;
      WsSend (js "[ERROR] No SSH key or password available for this server");
      WsClose], inr None).
Proof.
  apply (target_without_credentials_is_rejected
           (mkEnv (fun _ => Some (mkAuthSession (js "admin")))
                  (fun _ => Some (mkVm (Some (js "10.0.0.7")) None))
                  (fun _ => Some (mkSshKey (js "stored")))
                  (fun _ => None))
           (mkRequest (js "/wss/terminal") [(js "vmId", js "12")] [])
           (mkAuthSession (js "admin")) (js "12")
           (mkVm (Some (js "10.0.0.7")) None) [ConnReady]);
    try reflexivity.
  discriminate.
Defined.

(** X4. What the listener calls for a caller with a session, a target
    and stored parameters, in order: the session check, the target query
    with [Number(vmId)], the key-store query when the stored parameters
    name a key, then the heartbeat timer of 30000 ms, the connecting
    notice and, last, [conn.connect]. When [conn.connect] returns, the
    session starts waiting for the client to be ready; when it throws (a
    key it cannot parse), the listener throws that error, the timer set
    and the notice sent. Either way the transport is not closed. *)
Theorem accepted_connection_calls
  (env : Env) (req : IncomingMessage) (auth : AuthSession)
  (vmId : jsstring) (vm : Vm) (info : SshInfo) :
  getSession env (headers req) = Some auth ->
  searchParams_get (searchParams req) (js "vmId") = Some vmId ->
  vmId <> [] ->
  vm_findFirst env (Number_of_string vmId) = Some vm ->
  sshInfo vm = Some info ->
  exists config s,
    trace (onConnection env req) =
      [AuthGetSession (headers req); DbFindVm (Number_of_string vmId)]
        ++ key_lookup info
        ++ [SetInterval 30000; WsSend connecting_notice; ConnConnect config]
    /\ outcome (onConnection env req) =
         match connect_error env config with
         | Some err => inl (ThrownError err)
         | None => inr (Some s)
         end
    /\ phase s = Connecting /\ pingInterval s = true.
Proof.
  intros Hauth Hid Hne Hvm Hinfo.
  rewrite (onConnection_accepted env req auth vmId vm info
             Hauth Hid Hne Hvm Hinfo).
  do 2 eexists. repeat split.
Qed.

Lemma accepted_connection_calls_witness :
  let info := mkSshInfo None None None None (Some 3%float) in
  let vm := mkVm (Some (js "10.0.0.7")) (Some info) in
  let env := mkEnv (fun _ => Some (mkAuthSession (js "admin")))
                   (fun _ => Some vm)
                   (fun _ => Some (mkSshKey (js "stored")))
                   (fun _ => None) in
  let req := mkRequest (js "/wss/terminal") [(js "vmId", js "12")] [] in
  exists config s,
    trace (onConnection env req) =
      [AuthGetSession (headers req); DbFindVm (Number_of_string (js "12"))]
        ++ key_lookup info
        ++ [SetInterval 30000; WsSend connecting_notice; ConnConnect config]
    /\ outcome (onConnection env req) =
         match connect_error env config with
         | Some err => inl (ThrownError err)
         | None => inr (Some s)
         end
    /\ phase s = Connecting /\ pingInterval s = true.
Proof.
  intros info vm env req.
  apply (accepted_connection_calls env req (mkAuthSession (js "admin"))
           (js "12") vm info);
    try reflexivity.
  discriminate.
Defined.

(** X5. For an authenticated caller the target table is queried exactly
    when [vmId] is present and not empty, and then with [Number(vmId)]:
    an identifier that is no number is not turned away as an invalid
    request, it is looked up (as NaN). *)
Theorem target_is_queried_iff_vmId_present
  (env : Env) (req : IncomingMessage) (auth : AuthSession) (id : number) :
  getSession env (headers req) = Some auth ->
  In (DbFindVm id) (trace (onConnection env req)) <->
  exists vmId,
    searchParams_get (searchParams req) (js "vmId") = Some vmId
    /\ vmId <> [] /\ id = Number_of_string vmId.
Proof.
  intros Hauth. unfold onConnection. cbn [bind emit ret app].
  rewrite Hauth.
  destruct (searchParams_get (searchParams req) (js "vmId"))
    as [[|u vmId]|].
  1, 3: cbn; split;
    [ intros [H|[H|[H|[]]]]; discriminate H
    | intros (v & Hv & Hne & _); congruence ].
  cbn [bind emit ret app]. split.
  - intros Hin. exists (u :: vmId). split; [reflexivity|].
    split; [discriminate|].
    destruct (vm_findFirst env (Number_of_string (u :: vmId))) as [vm|].
    2: { cbn in Hin. destruct Hin as [H|[H|[H|[H|[]]]]];
         try discriminate H. injection H as <-. reflexivity. }
    destruct (sshInfo vm) as [info|].
    2: { cbn in Hin. destruct Hin as [H|[H|[H|[H|[]]]]];
         try discriminate H. injection H as <-. reflexivity. }
    revert Hin.
    destruct (sshKeyId info) as [k|]; [destruct (JsNumber.truthy k)|];
      connect_cases; cbn; intros Hin;
      repeat (destruct Hin as [Hin|Hin];
              [try discriminate Hin; try (injection Hin as <-; reflexivity)|]);
      contradiction.
  - intros (v & Hv & _ & ->). injection Hv as <-.
    destruct (vm_findFirst env (Number_of_string (u :: vmId))) as [vm|];
      [|cbn; auto].
    destruct (sshInfo vm) as [info|]; [|cbn; auto].
    destruct (sshKeyId info) as [k|]; [destruct (JsNumber.truthy k)|];
      connect_cases; cbn; auto.
Qed.

Lemma target_is_queried_iff_vmId_present_witness :
  let env := mkEnv (fun _ => Some (mkAuthSession (js "admin")))
                   (fun _ => None) (fun _ => None)
                   (fun _ => None) in
  let req := mkRequest (js "/wss/terminal") [(js "vmId", js "box")] [] in
  In (DbFindVm nan) (trace (onConnection env req)) <->
  exists vmId,
    searchParams_get (searchParams req) (js "vmId") = Some vmId
    /\ vmId <> [] /\ nan = Number_of_string vmId.
Proof.
  intros env req.
  apply (target_is_queried_iff_vmId_present env req
           (mkAuthSession (js "admin")) nan).
  reflexivity.
Defined.

(** X6. The "connection" listener ends in one of three ways. Started:
    the timer is set once, [conn.connect] is called once and returns, the
    only frame is the connecting notice and the transport stays open.
    Turned away: one frame is sent, the transport is closed right after
    it as the last call, and neither a timer nor a connection is left
    behind. Thrown: [conn.connect], called once, throws and the listener
    with it; the timer is set and the connecting notice sent by then, and
    the transport is not closed. *)
Theorem connection_is_started_turned_away_or_throws
  (env : Env) (req : IncomingMessage) :
  let t := trace (onConnection env req) in
  (exists s,
     outcome (onConnection env req) = inr (Some s)
     /\ count is_set_interval t = 1%nat
     /\ count is_conn_connect t = 1%nat
     /\ count is_ws_close t = 0%nat
     /\ sent_frames t = [connecting_notice])
  \/ (outcome (onConnection env req) = inr None
      /\ count is_set_interval t = 0%nat
      /\ count is_conn_connect t = 0%nat
      /\ exists calls notice,
           t = calls ++ [WsSend notice; WsClose]
           /\ sent_frames t = [notice])
  \/ (exists err config,
        outcome (onConnection env req) = inl (ThrownError err)
        /\ connect_error env config = Some err
        /\ (exists calls, t = calls ++ [ConnConnect config])
        /\ count is_set_interval t = 1%nat
        /\ count is_conn_connect t = 1%nat
        /\ count is_ws_close t = 0%nat
        /\ sent_frames t = [connecting_notice]).
Proof.
  assert (Haway : forall calls notice,
    let t := calls ++ [WsSend notice; WsClose] in
    count is_set_interval calls = 0%nat ->
    count is_conn_connect calls = 0%nat ->
    sent_frames calls = [] ->
    count is_set_interval t = 0%nat /\ count is_conn_connect t = 0%nat
    /\ exists calls' notice',
         t = calls' ++ [WsSend notice'; WsClose]
         /\ sent_frames t = [notice']).
  { intros calls notice t Htimer Hconnect Hsent. unfold t.
    rewrite !count_app, sent_frames_app, Htimer, Hconnect, Hsent.
    repeat split. exists calls, notice. split; reflexivity. }
  destruct (getSession env (headers req)) as [auth|] eqn:Hauth.
  2: { right; left. unfold onConnection. cbn [bind emit ret app].
       rewrite Hauth. split; [reflexivity|].
       apply (Haway [AuthGetSession (headers req)]); reflexivity. }
  destruct (searchParams_get (searchParams req) (js "vmId"))
    as [[|u vmId]|] eqn:Hid.
  1, 3: right; left; unfold onConnection; cbn [bind emit ret app];
    rewrite Hauth, Hid; (split; [reflexivity|]);
    apply (Haway [AuthGetSession (headers req)]); reflexivity.
  destruct (vm_findFirst env (Number_of_string (u :: vmId)))
    as [vm|] eqn:Hvm.
  2: { right; left. unfold onConnection. cbn [bind emit ret app].
       rewrite Hauth, Hid. cbn [bind emit ret app]. rewrite Hvm.
       split; [reflexivity|].
       apply (Haway [AuthGetSession (headers req);
                     DbFindVm (Number_of_string (u :: vmId))]);
         reflexivity. }
  destruct (sshInfo vm) as [info|] eqn:Hinfo.
  2: { right; left. unfold onConnection. cbn [bind emit ret app].
       rewrite Hauth, Hid. cbn [bind emit ret app]. rewrite Hvm.
       cbn [bind emit ret app]. rewrite Hinfo.
       split; [reflexivity|].
       apply (Haway [AuthGetSession (headers req);
                     DbFindVm (Number_of_string (u :: vmId))]);
         reflexivity. }
  assert (Hne : u :: vmId <> []) by discriminate.
  rewrite (onConnection_accepted env req auth (u :: vmId) vm info
             Hauth Hid Hne Hvm Hinfo).
  cbn [trace outcome fst snd].
  set (config := connect_config vm info _).
  assert (Hcounts :
    let t := [AuthGetSession (headers req);
              DbFindVm (Number_of_string (u :: vmId))]
               ++ key_lookup info
               ++ [SetInterval 30000; WsSend connecting_notice;
                   ConnConnect config] in
    count is_set_interval t = 1%nat /\ count is_conn_connect t = 1%nat
    /\ count is_ws_close t = 0%nat /\ sent_frames t = [connecting_notice]).
  { unfold key_lookup.
    destruct (sshKeyId info) as [k|]; [destruct (JsNumber.truthy k)|];
      repeat split. }
  destruct Hcounts as (Htimer & Hconnect & Hclose & Hsent).
  destruct (connect_error env config) as [err|] eqn:Herr.
  - right; right. exists err, config. repeat split; try assumption.
    eexists. rewrite app_assoc.
    change [SetInterval 30000; WsSend connecting_notice; ConnConnect config]
      with ([SetInterval 30000; WsSend connecting_notice]
              ++ [ConnConnect config]).
    rewrite app_assoc. reflexivity.
  - left. eexists. repeat split; assumption.
Qed.

(** ** Control messages and data messages *)

Lemma strict_eq_string_true v literal :
  strict_eq_string v literal = true <-> v = JString (js literal).
Proof.
  destruct v; cbn [strict_eq_string];
    try (split; [discriminate | discriminate]).
  rewrite jsstring_eqb_eq. split; [intros ->; reflexivity|].
  intros H. injection H as ->. reflexivity.
Qed.

(** X7. A message that decodes to an object whose [type] is not the string
    resize is a data message: the listener writes its [data] member to the
    shell when that is a string, and the text of the whole message
    otherwise; that write is its only call. *)
Theorem data_message_writes_data_or_text
  (message : RawData) (members : list (jsstring * JsValue)) :
  JSON.parse_text (RawData_toString message) = Some (JObject members) ->
  lookup members (js "type") <> Some (JString (js "resize")) ->
  ws_on_message message =
    ([StreamWrite
        match lookup members (js "data") with
        | Some (JString text) => text
        | _ => RawData_toString message
        end], inr tt).
Proof.
  intros Hparse Htype.
  apply ws_on_message_returns_when_dispatch_does.
  rewrite (decode_and_dispatch_object message members Hparse).
  cbv beta zeta.
  destruct (strict_eq_string _ "resize") eqn:Heq.
  - apply strict_eq_string_true in Heq.
    destruct (lookup members (js "type")) as [v|]; [|discriminate Heq].
    subst v. contradiction.
  - destruct (lookup members (js "data")) as [[]|]; reflexivity.
Qed.

Lemma data_message_writes_data_or_text_witness :
  ws_on_message (RBuffer (quoted_bytes "{'type':'input','data':'ls'}"))
  = ([StreamWrite (js "ls")], inr tt).
Proof.
  apply (data_message_writes_data_or_text
           (RBuffer (quoted_bytes "{'type':'input','data':'ls'}"))
           [(js "type", JString (js "input"));
            (js "data", JString (js "ls"))]).
  - reflexivity.
  - discriminate.
Defined.

(** X8. A message that is well-formed UTF-8 and decodes to a JSON scalar
    or array (a digit or a quoted word typed at the terminal) is not taken
    for a control message: its bytes reach the shell unchanged. *)
Theorem scalar_message_reaches_shell_unchanged
  (bytes : list Z) (v : JsValue) :
  Utf8.well_formed bytes = true ->
  JSON.parse_text (Utf8.decode bytes) = Some v ->
  is_scalar_or_array v = true ->
  ws_on_message (RBuffer bytes) = ([StreamWrite (Utf8.decode bytes)], inr tt)
  /\ shell_input (trace (ws_on_message (RBuffer bytes))) = bytes.
Proof.
  intros Hwf Hparse Hv.
  assert (Hrun : ws_on_message (RBuffer bytes)
                 = ([StreamWrite (Utf8.decode bytes)], inr tt)).
  { apply ws_on_message_returns_when_dispatch_does.
    unfold decode_and_dispatch, JSON_parse. cbn [RawData_toString].
    rewrite Hparse. destruct v; try discriminate Hv; reflexivity. }
  split; [exact Hrun|]. rewrite Hrun. cbn [trace fst shell_input].
  rewrite app_nil_r. apply Utf8Facts.encode_decode, Hwf.
Qed.

Lemma scalar_message_reaches_shell_unchanged_witness :
  ws_on_message (RBuffer (source_bytes "1"))
    = ([StreamWrite (Utf8.decode (source_bytes "1"))], inr tt)
  /\ shell_input (trace (ws_on_message (RBuffer (source_bytes "1"))))
     = source_bytes "1".
Proof.
  apply (scalar_message_reaches_shell_unchanged
           (source_bytes "1") (JNumber 1)); reflexivity.
Defined.

(** X9. A resize message whose [rows] or [cols] is missing or not a
    number is ignored without a trace: no resize, nothing written to the
    shell, no notice to the peer. *)
Theorem malformed_resize_is_ignored
  (message : RawData) (members : list (jsstring * JsValue)) :
  JSON.parse_text (RawData_toString message) = Some (JObject members) ->
  lookup members (js "type") = Some (JString (js "resize")) ->
  (forall n, lookup members (js "rows") <> Some (JNumber n))
  \/ (forall n, lookup members (js "cols") <> Some (JNumber n)) ->
  ws_on_message message = ([], inr tt).
Proof.
  intros Hparse Htype Hbad.
  apply ws_on_message_returns_when_dispatch_does.
  rewrite (decode_and_dispatch_object message members Hparse).
  cbv beta zeta. rewrite Htype.
  change (strict_eq_string (JString (js "resize")) "resize") with true.
  cbv iota.
  destruct (lookup members (js "rows")) as [[| |b|r|str|el|ms]|];
    try reflexivity.
  destruct (lookup members (js "cols")) as [[| |b|c|str|el|ms]|];
    try reflexivity.
  destruct Hbad as [H|H]; [destruct (H r) | destruct (H c)]; reflexivity.
Qed.

Lemma malformed_resize_is_ignored_witness :
  ws_on_message
    (RBuffer (quoted_bytes "{'type':'resize','rows':'40','cols':120}"))
  = ([], inr tt).
Proof.
  apply (malformed_resize_is_ignored
           (RBuffer (quoted_bytes "{'type':'resize','rows':'40','cols':120}"))
           [(js "type", JString (js "resize"));
            (js "rows", JString (js "40")); (js "cols", JNumber 120)]).
  - reflexivity.
  - reflexivity.
  - left. intros n. discriminate.
Defined.

(** X10. Whatever a peer sends, handling one message makes at most one
    call, never closes the transport, never ends the stream or the remote
    connection, and leaves the session as it was. *)
Theorem message_never_tears_down (s : Session) (message : RawData) :
  exists t,
    dispatch s (WsMessage message) = (t, inr s)
    /\ (List.length t <= 1)%nat
    /\ count is_ws_close t = 0%nat
    /\ count is_conn_end t = 0%nat
    /\ count is_stream_end t = 0%nat.
Proof.
  unfold dispatch. destruct (phase s);
    try (exists []; repeat split; cbn; lia).
  destruct (ws_on_message_calls message)
    as [-> | [(r & c & h & w & ->) | [(chunk & ->) | (notice & ->)]]];
    eexists; (split; [reflexivity|]); cbn; repeat split; lia.
Qed.

(** ** Relaying the shell's output *)

Lemma dispatch_output s chunk :
  phase s = ShellOpen ->
  exists t,
    dispatch s (output_event chunk) = (t, inr s)
    /\ sent_frames t = [output_frame chunk].
Proof.
  intros Hphase. destruct chunk; unfold dispatch, output_event;
    rewrite Hphase; eexists; split; reflexivity.
Qed.

(** X11. With the shell open, the output of the shell is relayed frame by
    frame in the order it arrives, text of the stream and bytes of the
    error channel interleaved as they come, and relaying leaves the
    session as it was. *)
Theorem output_is_relayed_in_order
  (s : Session) (chunks : list (jsstring + list Z)) :
  phase s = ShellOpen ->
  exists t,
    run s (map output_event chunks) = (t, inr s)
    /\ sent_frames t = map output_frame chunks.
Proof.
  intros Hphase. induction chunks as [|chunk chunks (t' & Hrest & Hsent)].
  - exists []. split; reflexivity.
  - destruct (dispatch_output s chunk Hphase) as (t & Hrun & Hframe).
    exists (t ++ t'). cbn [map run]. rewrite Hrun. cbn [bind].
    rewrite Hrest. split; [reflexivity|].
    rewrite sent_frames_app, Hframe, Hsent. reflexivity.
Qed.

Lemma output_is_relayed_in_order_witness :
  let s := mkSession 80 30 true ShellOpen in
  let chunks := [inl (js "$ "); inr (source_bytes "oops"); inl (js "ok")] in
  exists t,
    run s (map output_event chunks) = (t, inr s)
    /\ sent_frames t = map output_frame chunks.
Proof.
  intros s chunks.
  apply (output_is_relayed_in_order s chunks). reflexivity.
Defined.

(** X12. Error output that is well-formed UTF-8 reaches the peer intact:
    the frame sent for it is text whose UTF-8 encoding is the bytes the
    shell wrote (and the same text is logged). *)
Theorem stderr_bytes_reach_peer_intact (s : Session) (bytes : list Z) :
  phase s = ShellOpen ->
  Utf8.well_formed bytes = true ->
  exists text,
    dispatch s (StderrData bytes) =
      ([WsSend text; ConsoleError [js "Error: "; text]], inr s)
    /\ Utf8.encode text = bytes.
Proof.
  intros Hphase Hwf. exists (Utf8.decode bytes). split.
  - unfold dispatch. rewrite Hphase. reflexivity.
  - apply Utf8Facts.encode_decode, Hwf.
Qed.

Lemma stderr_bytes_reach_peer_intact_witness :
  let s := mkSession 80 30 true ShellOpen in
  let bytes := [0xE6; 0xAD; 0xA3; 0x0A] in
  exists text,
    dispatch s (StderrData bytes) =
      ([WsSend text; ConsoleError [js "Error: "; text]], inr s)
    /\ Utf8.encode text = bytes.
Proof.
  intros s bytes.
  apply (stderr_bytes_reach_peer_intact s bytes); reflexivity.
Defined.

(** ** Relaying the peer's input *)

(** X21. Keystrokes reach the shell in order and intact: with the shell
    open, a run of messages that are well-formed UTF-8 and that
    [JSON.parse] rejects writes to the shell exactly the bytes of the
    messages, one after the other, and sends nothing back to the peer. *)
Theorem raw_input_is_relayed_in_order
  (s : Session) (inputs : list (list Z)) :
  phase s = ShellOpen ->
  Forall (fun bytes =>
            Utf8.well_formed bytes = true
            /\ JSON.parse_text (Utf8.decode bytes) = None) inputs ->
  exists t,
    run s (map (fun bytes => WsMessage (RBuffer bytes)) inputs) = (t, inr s)
    /\ shell_input t = List.concat inputs
    /\ sent_frames t = [].
Proof.
  intros Hphase Hall. induction Hall as [|bytes inputs [Hwf Hparse] _ IH].
  - exists []. repeat split.
  - destruct IH as (t' & Hrest & Hinput & Hsent).
    exists (StreamWrite (Utf8.decode bytes) :: t').
    cbn [map run]. unfold dispatch at 1. rewrite Hphase.
    rewrite (ws_on_message_decode_failure (RBuffer bytes) Hparse).
    cbn [RawData_toString bind ret app]. rewrite Hrest.
    split; [reflexivity|]. cbn [shell_input sent_frames List.concat].
    rewrite Hinput, (Utf8Facts.encode_decode bytes Hwf).
    split; [reflexivity | exact Hsent].
Qed.

Lemma raw_input_is_relayed_in_order_witness :
  let s := mkSession 80 30 true ShellOpen in
  let inputs := [source_bytes "l"; source_bytes "s"; [13]] in
  exists t,
    run s (map (fun bytes => WsMessage (RBuffer bytes)) inputs) = (t, inr s)
    /\ shell_input t = List.concat inputs
    /\ sent_frames t = [].
Proof.
  intros s inputs.
  apply (raw_input_is_relayed_in_order s inputs); [reflexivity|].
  repeat constructor.
Defined.

(** ** The heartbeat *)

(** No listener sets the timer again, and a cleared timer does not
    tick. *)
Lemma dispatch_keeps_timer_cleared s ev :
  pingInterval s = false ->
  exists t s',
    dispatch s ev = (t, inr s') /\ pingInterval s' = false
    /\ count is_ws_ping t = 0%nat.
Proof.
  intros Hoff. destruct ev; unfold dispatch; rewrite ?Hoff.
  1: do 2 eexists; repeat split; assumption.
  2: { unfold conn_on_error.
       destruct (is_client_authentication (ssh_level err));
         do 2 eexists; repeat split. }
  7: { destruct (phase s); try (do 2 eexists; repeat split; assumption).
       destruct (ws_on_message_calls message)
         as [-> | [(r & c & h & w & ->) | [(chunk & ->) | (notice & ->)]]];
         do 2 eexists; repeat split; assumption. }
  2: { destruct (phase s); try (do 2 eexists; repeat split; assumption).
       destruct err; do 2 eexists; repeat split; assumption. }
  all: destruct (phase s); do 2 eexists; repeat split; assumption.
Qed.

Lemma cleared_timer_never_pings s events :
  pingInterval s = false -> count is_ws_ping (trace (run s events)) = 0%nat.
Proof.
  revert s. induction events as [|ev events IH]; intros s Hoff;
    [reflexivity|].
  destruct (dispatch_keeps_timer_cleared s ev Hoff)
    as (t & s1 & Hrun & Hoff1 & Hping).
  specialize (IH s1 Hoff1).
  destruct (run_returns s1 events) as (t' & s' & Hrest).
  cbn [run]. rewrite Hrun. cbn [bind]. rewrite Hrest.
  rewrite Hrest in IH. cbn [trace fst] in *.
  rewrite count_app, Hping, IH. reflexivity.
Qed.

(** X13. Once a teardown listener has run (the stream closed or the
    transport closed with the shell open, or the connection failed in any
    phase), the heartbeat is over: no ping is sent for that event or for
    anything that happens afterwards, whatever state the transport
    reports. *)
Theorem no_ping_after_teardown
  (s : Session) (ev : Event) (later : list Event) :
  ends_remote ev = true ->
  phase s = ShellOpen \/ is_conn_error ev = true ->
  count is_ws_ping (trace (run s (ev :: later))) = 0%nat.
Proof.
  intros Hev Hphase.
  assert (Hstep : exists t s',
    dispatch s ev = (t, inr s') /\ pingInterval s' = false
    /\ count is_ws_ping t = 0%nat).
  { destruct ev; try discriminate Hev.
    - unfold dispatch, conn_on_error.
      destruct (is_client_authentication (ssh_level err));
        do 2 eexists; repeat split.
    - destruct Hphase as [Hphase|Hphase]; [|discriminate Hphase].
      unfold dispatch. rewrite Hphase. do 2 eexists; repeat split.
    - destruct Hphase as [Hphase|Hphase]; [|discriminate Hphase].
      unfold dispatch. rewrite Hphase. do 2 eexists; repeat split. }
  destruct Hstep as (t & s1 & Hrun & Hoff & Hping).
  pose proof (cleared_timer_never_pings s1 later Hoff) as Hlater.
  destruct (run_returns s1 later) as (t' & s' & Hrest).
  cbn [run]. rewrite Hrun. cbn [bind]. rewrite Hrest.
  rewrite Hrest in Hlater. cbn [trace fst] in *.
  rewrite count_app, Hping, Hlater. reflexivity.
Qed.

Lemma no_ping_after_teardown_witness :
  count is_ws_ping
    (trace (run (mkSession 80 30 true ShellOpen)
                (StreamClose 0 :: [Tick OPEN; Tick OPEN]))) = 0%nat.
Proof.
  apply (no_ping_after_teardown (mkSession 80 30 true ShellOpen)
           (StreamClose 0) [Tick OPEN; Tick OPEN]).
  - reflexivity.
  - left. reflexivity.
Defined.

(** ** Events before the shell is open *)

(** X14. The transport's close listener exists only once the shell is
    open. If the peer goes away earlier, nothing is called: the heartbeat
    timer is not cleared, the remote connection is not ended, and the
    session goes on exactly as if the transport were still there. *)
Theorem early_transport_close_is_ignored
  (s s' : Session) (pre post : list Event) (t : list Effect) :
  run s pre = (t, inr s') ->
  phase s' <> ShellOpen ->
  dispatch s' WsCloseEvent = ([], inr s')
  /\ run s (pre ++ WsCloseEvent :: post) = run s (pre ++ post).
Proof.
  intros Hpre Hphase.
  assert (Hdrop : dispatch s' WsCloseEvent = ret s').
  { unfold dispatch. destruct (phase s'); try reflexivity. contradiction. }
  split; [exact Hdrop|].
  rewrite !run_app, Hpre. cbn [bind run]. rewrite Hdrop.
  rewrite bind_ret_l. reflexivity.
Qed.

Lemma early_transport_close_is_ignored_witness :
  let s := mkSession 80 30 true Connecting in
  dispatch s WsCloseEvent = ([], inr s)
  /\ run s ([] ++ WsCloseEvent :: [ConnReady; ShellResult None])
     = run s ([] ++ [ConnReady; ShellResult None]).
Proof.
  intros s.
  apply (early_transport_close_is_ignored s s [] [ConnReady; ShellResult None]
           []).
  - reflexivity.
  - discriminate.
Defined.

(** ** Failures of the remote side *)

(** X15. A connection error is handled the same way in every phase: it is
    logged, the heartbeat is cleared, one notice is sent, the remote
    connection is ended and the transport is closed, in that order. The
    notice tells a rejected credential from any other failure: it is the
    authentication text exactly when the error's level is
    client-authentication, and the connection-error text with the error's
    message otherwise. *)
Theorem connection_error_tears_down (s : Session) (err : SshError) :
  exists notice,
    dispatch s (ConnError err) =
      ([ConsoleLog [js "error"; ssh_message err];
        ClearInterval; WsSend notice; ConnEnd; WsClose],
       inr (cleared s))
    /\ (ssh_level err = Some (js "client-authentication") ->
        notice =
          Utf8.decode (source_bytes
            "[ERROR] Authentication failed: Invalid SSH private key. ❌ Error: ")
          ++ ssh_message err ++ js " client-authentication")
    /\ (ssh_level err <> Some (js "client-authentication") ->
        notice = js "[ERROR] SSH connection error: " ++ ssh_message err).
Proof.
  unfold dispatch, conn_on_error.
  destruct (is_client_authentication (ssh_level err)) eqn:Hlevel.
  - eexists. split; [reflexivity|].
    unfold is_client_authentication in Hlevel.
    destruct (ssh_level err) as [l|]; [|discriminate].
    apply jsstring_eqb_eq in Hlevel. subst l.
    split; [intros _; reflexivity | intros H; contradiction].
  - eexists. split; [reflexivity|].
    split; [|intros _; reflexivity].
    intros Heq. rewrite Heq in Hlevel. discriminate Hlevel.
Qed.

(** After a failed shell request only the timer and the connection's
    error listener are left. *)
Lemma dispatch_after_shell_failure s ev :
  phase s = ShellFailed -> is_conn_error ev = false ->
  exists t s',
    dispatch s ev = (t, inr s') /\ phase s' = ShellFailed
    /\ pingInterval s' = pingInterval s
    /\ count is_conn_end t = 0%nat
    /\ count is_ws_close t = 0%nat
    /\ count is_stream_write t = 0%nat
    /\ sent_frames t = [].
Proof.
  intros Hphase Hev. destruct ev; try discriminate Hev;
    unfold dispatch; rewrite ?Hphase;
    try (do 2 eexists; repeat split; assumption).
  destruct (pingInterval s) eqn:Hping; [destruct readyState|];
    do 2 eexists; repeat split; assumption.
Qed.

(** X16. When the shell request fails, the peer gets the shell-error
    notice and the transport is closed, and that is all the bridge ever
    does about it: as long as the connection raises no error, the remote
    connection is never ended, the heartbeat timer is never cleared, and
    nothing is sent to the peer or written to a shell. *)
Theorem shell_failure_only_closes_transport
  (s : Session) (err : JsError) (later : list Event) :
  phase s = ShellRequested ->
  occurrences is_conn_error later = 0%nat ->
  exists t s',
    run s (ShellResult (Some err) :: later) = (t, inr s')
    /\ sent_frames t = [js "[ERROR] Shell error: " ++ err_message err]
    /\ count is_ws_close t = 1%nat
    /\ count is_conn_end t = 0%nat
    /\ count is_stream_write t = 0%nat
    /\ pingInterval s' = pingInterval s.
Proof.
  intros Hphase Hlater.
  assert (Hrest : forall s1, phase s1 = ShellFailed ->
    exists t' s', run s1 later = (t', inr s')
      /\ pingInterval s' = pingInterval s1
      /\ count is_conn_end t' = 0%nat
      /\ count is_ws_close t' = 0%nat
      /\ count is_stream_write t' = 0%nat
      /\ sent_frames t' = []).
  { clear s Hphase. induction later as [|ev later IH]; intros s1 Hph.
    - do 2 eexists. repeat split.
    - unfold occurrences in Hlater. cbn [filter] in Hlater.
      destruct (is_conn_error ev) eqn:Hev; [discriminate Hlater|].
      destruct (dispatch_after_shell_failure s1 ev Hph Hev)
        as (t1 & s2 & Hrun & Hph2 & Hping & Hend & Hclose & Hwrite & Hsent).
      destruct (IH Hlater s2 Hph2)
        as (t' & s' & Hrun' & Hping' & Hend' & Hclose' & Hwrite' & Hsent').
      exists (t1 ++ t'), s'. cbn [run]. rewrite Hrun. cbn [bind].
      rewrite Hrun'. split; [reflexivity|].
      rewrite !count_app, sent_frames_app, Hend, Hend', Hwrite, Hwrite',
        Hclose, Hclose', Hsent, Hsent'.
      repeat split. congruence. }
  destruct (Hrest (with_phase s ShellFailed) eq_refl)
    as (t' & s' & Hrun' & Hping' & Hend' & Hclose' & Hwrite' & Hsent').
  exists ([WsSend (js "[ERROR] Shell error: " ++ err_message err); WsClose]
            ++ t'), s'.
  cbn [run]. unfold dispatch. rewrite Hphase.
  cbn [shell_callback bind emit ret app]. rewrite Hrun'.
  cbn [app]. split; [reflexivity|].
  cbn [sent_frames]. rewrite Hsent'.
  change (WsSend ?a :: WsClose :: t') with ([WsSend a; WsClose] ++ t').
  rewrite !count_app, Hend', Hclose', Hwrite'.
  repeat split. exact Hping'.
Qed.

Lemma shell_failure_only_closes_transport_witness :
  let s := mkSession 80 30 true ShellRequested in
  let err := mkError PlainError (js "Unable to request a pseudo-terminal") in
  exists t s',
    run s (ShellResult (Some err) :: [WsMessage (RBuffer (source_bytes "ls"));
                                      Tick CLOSED; WsCloseEvent])
      = (t, inr s')
    /\ sent_frames t = [js "[ERROR] Shell error: " ++ err_message err]
    /\ count is_ws_close t = 1%nat
    /\ count is_conn_end t = 0%nat
    /\ count is_stream_write t = 0%nat
    /\ pingInterval s' = pingInterval s.
Proof.
  intros s err.
  apply (shell_failure_only_closes_transport s err
           [WsMessage (RBuffer (source_bytes "ls")); Tick CLOSED;
            WsCloseEvent]); reflexivity.
Defined.

(** ** What happens once per session *)

(** One event asks for the shell only as the first "ready" and registers
    the stream's listeners only as the first answer to that request; no
    event gives a session a request or an opening back. *)
Lemma dispatch_uses_up_openings s ev :
  exists t s',
    dispatch s ev = (t, inr s')
    /\ (count is_conn_shell t + shell_requests_left (phase s')
        <= shell_requests_left (phase s))%nat
    /\ (count is_set_encoding t + shell_openings_left (phase s')
        <= shell_openings_left (phase s))%nat.
Proof.
  assert (Hsame : forall t,
    count is_conn_shell t = 0%nat -> count is_set_encoding t = 0%nat ->
    forall s', phase s' = phase s ->
    (count is_conn_shell t + shell_requests_left (phase s')
       <= shell_requests_left (phase s))%nat
    /\ (count is_set_encoding t + shell_openings_left (phase s')
       <= shell_openings_left (phase s))%nat).
  { intros t -> -> s' ->. lia. }
  destruct ev; unfold dispatch.
  - destruct (pingInterval s); [destruct readyState|];
      do 2 eexists; (split; [reflexivity|]); apply Hsame; reflexivity.
  - destruct (phase s) eqn:Hphase;
      do 2 eexists; (split; [reflexivity|]);
      try (apply Hsame; reflexivity || assumption).
    cbn. lia.
  - unfold conn_on_error.
    destruct (is_client_authentication (ssh_level err));
      do 2 eexists; (split; [reflexivity|]); apply Hsame; reflexivity.
  - destruct (phase s) eqn:Hphase; [ | destruct err | | ];
      do 2 eexists; (split; [reflexivity|]);
      try (apply Hsame; reflexivity || assumption);
      cbn; lia.
  - destruct (phase s) eqn:Hphase; do 2 eexists; (split; [reflexivity|]);
      apply Hsame; reflexivity || assumption.
  - destruct (phase s) eqn:Hphase; do 2 eexists; (split; [reflexivity|]);
      apply Hsame; reflexivity || assumption.
  - destruct (phase s) eqn:Hphase; do 2 eexists; (split; [reflexivity|]);
      apply Hsame; reflexivity || assumption.
  - destruct (phase s) eqn:Hphase; do 2 eexists; (split; [reflexivity|]);
      apply Hsame; reflexivity || assumption.
  - destruct (phase s) eqn:Hphase;
      try (do 2 eexists; (split; [reflexivity|]);
           apply Hsame; reflexivity || assumption).
    destruct (ws_on_message_calls message)
      as [-> | [(r & c & h & w & ->) | [(chunk & ->) | (notice & ->)]]];
      do 2 eexists; (split; [reflexivity|]);
      apply Hsame; reflexivity || assumption.
  - destruct (phase s) eqn:Hphase; do 2 eexists; (split; [reflexivity|]);
      apply Hsame; reflexivity || assumption.
Qed.

(** X17. Over any sequence of events a session asks for a shell at most
    once and registers the listeners of the shell stream at most once; a
    session that has asked already never asks again, however often the
    client reports ready. *)
Theorem shell_is_requested_at_most_once (s : Session) (events : list Event) :
  (count is_conn_shell (trace (run s events)) <= 1)%nat
  /\ (count is_set_encoding (trace (run s events)) <= 1)%nat
  /\ (phase s <> Connecting ->
      count is_conn_shell (trace (run s events)) = 0%nat).
Proof.
  assert (Hinv : forall events s,
    (count is_conn_shell (trace (run s events))
       <= shell_requests_left (phase s))%nat
    /\ (count is_set_encoding (trace (run s events))
       <= shell_openings_left (phase s))%nat).
  { clear. induction events as [|ev events IH]; intros s.
    - cbn. lia.
    - destruct (dispatch_uses_up_openings s ev)
        as (t & s1 & Hrun & Hshell & Hopen).
      destruct (IH s1) as [IHshell IHopen].
      destruct (run_returns s1 events) as (t' & s' & Hrest).
      cbn [run]. rewrite Hrun. cbn [bind]. rewrite Hrest.
      rewrite Hrest in IHshell, IHopen. cbn [trace fst] in *.
      rewrite !count_app. lia. }
  destruct (Hinv events s) as [Hshell Hopen].
  repeat split.
  - destruct (phase s); cbn in Hshell; lia.
  - destruct (phase s); cbn in Hopen; lia.
  - intros Hphase. destruct (phase s); cbn in Hshell;
      [contradiction | lia | lia | lia].
Qed.

(** ** Notices *)

(** X18. The bridge never closes the transport silently: whenever the
    "connection" listener or the listener of any event calls [ws.close()],
    it has sent a frame to the peer earlier in the same run. *)
Theorem transport_is_never_closed_silently :
  (forall env req,
     closes_after_notice false (trace (onConnection env req)) = true)
  /\ (forall s ev, closes_after_notice false (trace (dispatch s ev)) = true).
Proof.
  split.
  - intros env req. unfold onConnection. cbn [bind emit ret app].
    destruct (getSession env (headers req)); [|reflexivity].
    destruct (searchParams_get (searchParams req) (js "vmId"))
      as [[|u vmId]|]; try reflexivity.
    cbn [bind emit ret app].
    destruct (vm_findFirst env (Number_of_string (u :: vmId))) as [vm|];
      [|reflexivity].
    destruct (sshInfo vm) as [info|]; [|reflexivity].
    destruct (sshKeyId info) as [k|]; [destruct (JsNumber.truthy k)|];
      connect_cases; reflexivity.
  - intros s ev. destruct ev; unfold dispatch.
    + destruct (pingInterval s); [destruct readyState|]; reflexivity.
    + destruct (phase s); reflexivity.
    + unfold conn_on_error.
      destruct (is_client_authentication (ssh_level err)); reflexivity.
    + destruct (phase s); [ | destruct err | | ]; reflexivity.
    + destruct (phase s); reflexivity.
    + destruct (phase s); reflexivity.
    + destruct (phase s); reflexivity.
    + destruct (phase s); reflexivity.
    + destruct (phase s); try reflexivity.
      destruct (ws_on_message_calls message)
        as [-> | [(r & c & h & w & ->) | [(chunk & ->) | (notice & ->)]]];
        reflexivity.
    + destruct (phase s); reflexivity.
Qed.

(** ** A whole session *)

Lemma accepted_frames env req t s :
  onConnection env req = (t, inr (Some s)) ->
  sent_frames t = [connecting_notice] /\ phase s = Connecting.
Proof.
  unfold onConnection. cbn [bind emit ret app].
  destruct (getSession env (headers req)); [|discriminate].
  destruct (searchParams_get (searchParams req) (js "vmId")) as [[|u vmId]|];
    try discriminate.
  cbn [bind emit ret app].
  destruct (vm_findFirst env (Number_of_string (u :: vmId))) as [vm|];
    [|discriminate].
  destruct (sshInfo vm) as [info|]; [|discriminate].
  destruct (sshKeyId info) as [id|]; [destruct (JsNumber.truthy id)|];
    connect_cases; cbn; intros H; try discriminate H;
    injection H as <- <-; split; reflexivity.
Qed.

Lemma stream_data_frames s chunks :
  phase s = ShellOpen ->
  run s (map StreamData chunks) = (map WsSend chunks, inr s).
Proof.
  intros Hphase. induction chunks as [|chunk chunks IH]; [reflexivity|].
  cbn [map run]. unfold dispatch at 1. rewrite Hphase.
  cbn [stream_on_data bind emit ret app]. rewrite IH. reflexivity.
Qed.

Lemma sent_frames_sends chunks : sent_frames (map WsSend chunks) = chunks.
Proof.
  induction chunks as [|c chunks IH]; [reflexivity|].
  cbn. rewrite IH. reflexivity.
Qed.

(** X19. A session from the request to the shell's output: once a
    connection is accepted, the client reports ready and the shell opens,
    the peer has received the connecting notice, then the clear-screen
    sequence ESC [ 2 J, then the chunks the shell printed, each as one
    frame, in the order they were printed, and nothing else. *)
Theorem accepted_session_frames
  (env : Env) (req : IncomingMessage) (t0 : list Effect) (s0 : Session)
  (chunks : list jsstring) :
  upgrade req = true ->
  onConnection env req = (t0, inr (Some s0)) ->
  sent_frames
    (trace (serve env req
              (ConnReady :: ShellResult None :: map StreamData chunks)))
  = connecting_notice :: ([27] ++ js "[2J") :: chunks.
Proof.
  intros Hup Haccept.
  destruct (accepted_frames env req t0 s0 Haccept) as [Hsent Hphase].
  unfold serve. rewrite Hup, Haccept. cbn [bind run].
  unfold dispatch at 1. rewrite Hphase.
  cbn [conn_once_ready bind emit ret app].
  unfold dispatch at 1. cbn [with_phase phase shell_callback bind emit ret app].
  rewrite stream_data_frames by reflexivity.
  cbn [bind ret trace fst app]. rewrite app_nil_r, sent_frames_app, Hsent.
  cbn [sent_frames app]. rewrite sent_frames_sends. reflexivity.
Qed.

Lemma accepted_session_frames_witness :
  let vm := mkVm (Some (js "10.0.0.7"))
                 (Some (mkSshInfo None None None (Some (js "inline")) None)) in
  let env := mkEnv (fun _ => Some (mkAuthSession (js "admin")))
                   (fun _ => Some vm) (fun _ => None)
                   (fun _ => None) in
  let req := mkRequest (js "/wss/terminal") [(js "vmId", js "7")] [] in
  sent_frames
    (trace (serve env req
              (ConnReady :: ShellResult None
                 :: map StreamData [js "$ "; js "hello"])))
  = connecting_notice :: ([27] ++ js "[2J") :: [js "$ "; js "hello"].
Proof.
  intros vm env req.
  apply (accepted_session_frames env req
           (fst (onConnection env req))
           (mkSession 80 30 true Connecting) [js "$ "; js "hello"]);
    reflexivity.
Defined.
